(** * natedns: the DNS wire codec of package [dns]

    A shallow embedding of the message codec of [internal/dns] (the last
    snapshot of the package: [NewHeader], [header.Write], [readQName],
    [writeQName], [newQuestion], [question.Write], [newResourceRecord],
    [resourceRecord.Write], [NewMessage], [Message.Write]) and the
    properties of it that the specification talks about.

    Conventions.
    - A [[]byte] is a [list byte]; the bytes of a slice are the ones below
      its length.  A Go [string] is a [string] (a sequence of 8-bit
      characters).  A [nil] slice and an empty slice are both [[]]: the code
      only ever appends them or takes their length.
    - [uint8], [uint16] and [uint32] values are integers of [Z]; every
      conversion and every shift that can leave the width is wrapped
      explicitly.
    - A Go call either returns or panics: [outcome].  The calls to
      [spew.Dump] and [fmt.Println] only print and are left out, except for
      the index expression one of them evaluates. *)

From Stdlib Require Import ZArith List Lia Bool String Ascii.
From Stdlib Require Import Strings.Byte.
Import ListNotations.

Local Open Scope Z_scope.

(** ** The fragment of Go the package relies on *)

Module Go.

(** The package-level error variables. *)
Inductive error : Set :=
| ErrorInvalidHeader        (* errors.New("header: invalid") *)
| ErrorInvalidQNameLength.  (* errors.New("qname: buffer is empty") *)

(** What a panic carries: the runtime's bounds error (an index or a slice
    expression out of range) or the value given to [panic]. *)
Inductive panicValue : Set :=
| BoundsError
| ErrorValue (e : error).

Inductive outcome (A : Type) : Type :=
| Return (a : A)
| Panic (v : panicValue).

Arguments Return {A} a.
Arguments Panic {A} v.

Definition bind {A B : Type} (m : outcome A) (k : A -> outcome B) : outcome B :=
  match m with
  | Return a => k a
  | Panic v => Panic v
  end.

(** Fixed-width unsigned conversions. *)
Definition uint8 (x : Z) : Z := x mod 2 ^ 8.
Definition uint16 (x : Z) : Z := x mod 2 ^ 16.
Definition uint32 (x : Z) : Z := x mod 2 ^ 32.

(** The value of a byte, and the byte of a [uint8] value. *)
Definition byteZ (b : byte) : Z := Z.of_N (Byte.to_N b).

Definition toByte (x : Z) : byte :=
  match Byte.of_N (Z.to_N (uint8 x)) with
  | Some b => b
  | None => x00
  end.

(** [len(b)], [b[i]], [b[lo:]] and [b[0:hi]].  The last one is checked
    against the capacity, which is taken to be the length here; the only
    users, [read16] and [read32], evaluate [b[hi:]] right after, so they
    panic with a bounds error in exactly the same cases either way. *)
Definition len {A : Type} (b : list A) : Z := Z.of_nat (List.length b).

Definition index (b : list byte) (i : nat) : outcome byte :=
  match nth_error b i with
  | Some x => Return x
  | None => Panic BoundsError
  end.

Definition sliceFrom (b : list byte) (lo : nat) : outcome (list byte) :=
  if (lo <=? List.length b)%nat then Return (skipn lo b) else Panic BoundsError.

Definition sliceTo (b : list byte) (hi : nat) : outcome (list byte) :=
  if (hi <=? List.length b)%nat then Return (firstn hi b) else Panic BoundsError.

(** [binary.BigEndian.Uint16] and [binary.BigEndian.Uint32]. *)
Definition BigEndianUint16 (b : list byte) : outcome Z :=
  match b with
  | b0 :: b1 :: _ =>
      Return (Z.lor (uint16 (byteZ b1)) (uint16 (Z.shiftl (uint16 (byteZ b0)) 8)))
  | _ => Panic BoundsError
  end.

Definition BigEndianUint32 (b : list byte) : outcome Z :=
  match b with
  | b0 :: b1 :: b2 :: b3 :: _ =>
      Return (Z.lor (Z.lor (Z.lor (uint32 (byteZ b3))
                                  (uint32 (Z.shiftl (uint32 (byteZ b2)) 8)))
                           (uint32 (Z.shiftl (uint32 (byteZ b1)) 16)))
                    (uint32 (Z.shiftl (uint32 (byteZ b0)) 24)))
  | _ => Panic BoundsError
  end.

(** Characters of a string as byte values. *)
Definition charZ (c : ascii) : Z := byteZ (byte_of_ascii c).
Definition charOf (x : Z) : ascii := ascii_of_byte (toByte x).

(** [string(x)] for a byte [x]: the UTF-8 encoding of the code point [x],
    one character below 0x80 and two from there on. *)
Definition stringOfByte (x : byte) : string :=
  let r := byteZ x in
  if r <? 0x80 then String (charOf r) EmptyString
  else String (charOf (Z.lor 0xC0 (Z.shiftr r 6)))
         (String (charOf (Z.lor 0x80 (Z.land r 0x3F))) EmptyString).

(** [for _, r := range s]: the code points of [s] in order.  A character
    below 0x80 is its own code point; otherwise the runtime decodes a
    UTF-8 sequence of two to four characters, and yields 0xFFFD and moves
    on by one character when the sequence is not a valid one. *)
Definition runeError : Z := 0xFFFD.

Definition isCont (x : Z) : bool := (0x80 <=? x) && (x <=? 0xBF).

Fixpoint runes (s : string) : list Z :=
  match s with
  | EmptyString => []
  | String c0 s1 =>
      let x0 := charZ c0 in
      let invalid := runeError :: runes s1 in
      if x0 <? 0x80 then x0 :: runes s1
      else if (0xC0 <=? x0) && (x0 <? 0xE0) then
        match s1 with
        | String c1 s2 =>
            let x1 := charZ c1 in
            let r := Z.lor (Z.shiftl (Z.land x0 0x1F) 6) (Z.land x1 0x3F) in
            if isCont x1 && (0x7F <? r) then r :: runes s2 else invalid
        | _ => invalid
        end
      else if (0xE0 <=? x0) && (x0 <? 0xF0) then
        match s1 with
        | String c1 (String c2 s3) =>
            let x1 := charZ c1 in
            let x2 := charZ c2 in
            let r := Z.lor (Z.lor (Z.shiftl (Z.land x0 0x0F) 12)
                                  (Z.shiftl (Z.land x1 0x3F) 6))
                           (Z.land x2 0x3F) in
            if isCont x1 && isCont x2 && (0x7FF <? r)
               && negb ((0xD800 <=? r) && (r <=? 0xDFFF))
            then r :: runes s3 else invalid
        | _ => invalid
        end
      else if (0xF0 <=? x0) && (x0 <? 0xF8) then
        match s1 with
        | String c1 (String c2 (String c3 s4)) =>
            let x1 := charZ c1 in
            let x2 := charZ c2 in
            let x3 := charZ c3 in
            let r := Z.lor (Z.lor (Z.lor (Z.shiftl (Z.land x0 0x07) 18)
                                         (Z.shiftl (Z.land x1 0x3F) 12))
                                  (Z.shiftl (Z.land x2 0x3F) 6))
                           (Z.land x3 0x3F) in
            if isCont x1 && isCont x2 && isCont x3
               && (0xFFFF <? r) && (r <=? 0x10FFFF)
            then r :: runes s4 else invalid
        | _ => invalid
        end
      else invalid
  end.

(** [strings.Split(s, ".")]: the pieces of [s] between the dots, one more
    than there are dots. *)
Fixpoint SplitDot (s : string) : list string :=
  match s with
  | EmptyString => [EmptyString]
  | String c s' =>
      if Ascii.eqb c "."%char then EmptyString :: SplitDot s'
      else match SplitDot s' with
           | piece :: pieces => String c piece :: pieces
           | [] => [String c EmptyString]
           end
  end.

End Go.

Import Go.

Notation "x <- m ;; k" := (bind m (fun x => k))
  (at level 61, m at next level, right associativity).
Notation "' pat <- m ;; k" := (bind m (fun x => match x with pat => k end))
  (at level 61, pat pattern, m at next level, right associativity).

(** ** Header *)

Module header.

Record t : Set := mk {
  id : Z;           (* uint16, message id *)
  qr : Z;           (* uint8, query or response *)
  opcode : Z;       (* uint8 *)
  aa : Z;           (* uint8, authoritative *)
  tc : Z;           (* uint8, truncation *)
  rd : Z;           (* uint8, recursion desired *)
  ra : Z;           (* uint8, recursion available *)
  z : Z;            (* uint8, future use *)
  rcode : Z;        (* uint8, response code *)
  questions : Z;    (* uint16 *)
  answers : Z;      (* uint16 *)
  authorities : Z;  (* uint16 *)
  additionals : Z   (* uint16 *)
}.

(** [func (hdr header) Write() []byte].  The shifts are [uint8] shifts. *)
Definition Write (hdr : t) : list byte :=
  [ toByte (uint8 (Z.shiftr (id hdr) 8));
    toByte (uint8 (Z.land (id hdr) 0xff));
    toByte (Z.lor (Z.lor (Z.lor (Z.lor (rd hdr)
                                       (uint8 (Z.shiftl (tc hdr) 1)))
                                (uint8 (Z.shiftl (aa hdr) 2)))
                         (uint8 (Z.shiftl (opcode hdr) 3)))
                  (uint8 (Z.shiftl (ra hdr) 7)));
    toByte (rcode hdr);
    toByte (uint8 (Z.shiftr (questions hdr) 8));
    toByte (uint8 (Z.land (questions hdr) 0xff));
    toByte (uint8 (Z.shiftr (answers hdr) 8));
    toByte (uint8 (Z.land (answers hdr) 0xff));
    toByte (uint8 (Z.shiftr (authorities hdr) 8));
    toByte (uint8 (Z.land (authorities hdr) 0xff));
    toByte (uint8 (Z.shiftr (additionals hdr) 8));
    toByte (uint8 (Z.land (additionals hdr) 0xff)) ].

(** The headers of the DNS format: one-bit flags, four-bit [opcode] and
    [rcode], sixteen-bit [id] and counts. *)
Definition representable (hdr : t) : Prop :=
  0 <= id hdr < 2 ^ 16 /\ 0 <= qr hdr < 2 /\ 0 <= opcode hdr < 2 ^ 4 /\
  0 <= aa hdr < 2 /\ 0 <= tc hdr < 2 /\ 0 <= rd hdr < 2 /\
  0 <= ra hdr < 2 /\ 0 <= z hdr < 2 /\ 0 <= rcode hdr < 2 ^ 4 /\
  0 <= questions hdr < 2 ^ 16 /\ 0 <= answers hdr < 2 ^ 16 /\
  0 <= authorities hdr < 2 ^ 16 /\ 0 <= additionals hdr < 2 ^ 16.

End header.

Definition QrMask : Z := 0x8000.
Definition OPCodeMask : Z := 0x7800.
Definition AAMask : Z := 0x0400.
Definition TCMask : Z := 0x0200.
Definition RDMask : Z := 0x0100.
Definition RAMask : Z := 0x0080.
Definition ZMask : Z := 0x0040.
Definition RCodeMask : Z := 0x003F.

(** [func read16(b []byte) (uint16, []byte)] *)
Definition read16 (b : list byte) : outcome (Z * list byte) :=
  hd <- sliceTo b 2 ;;
  v <- BigEndianUint16 hd ;;
  tl <- sliceFrom b 2 ;;
  Return (v, tl).

(** [func read32(b []byte) (uint32, []byte)] *)
Definition read32 (b : list byte) : outcome (Z * list byte) :=
  hd <- sliceTo b 4 ;;
  v <- BigEndianUint32 hd ;;
  tl <- sliceFrom b 4 ;;
  Return (v, tl).

(** [func NewHeader(b []byte)], returning the header and the unread bytes. *)
Definition NewHeader (b : list byte) : outcome (header.t * list byte) :=
  '(id, b) <- read16 b ;;
  '(qinfo, b) <- read16 b ;;
  let qr := uint8 (Z.shiftr (Z.land qinfo QrMask) 15) in
  let aa := uint8 (Z.shiftr (Z.land qinfo AAMask) 10) in
  let tc := uint8 (Z.shiftr (Z.land qinfo TCMask) 9) in
  let rd := uint8 (Z.shiftr (Z.land qinfo RDMask) 8) in
  let ra := uint8 (Z.shiftr (Z.land qinfo RAMask) 7) in
  let z := uint8 (Z.shiftr (Z.land qinfo ZMask) 6) in
  let rcode := uint8 (Z.land qinfo RCodeMask) in
  let opcode := uint8 (Z.shiftr (Z.land qinfo OPCodeMask) 11) in
  '(questions, b) <- read16 b ;;
  '(answers, b) <- read16 b ;;
  '(authorities, b) <- read16 b ;;
  '(additionals, b) <- read16 b ;;
  Return (header.mk id qr opcode aa tc rd ra z rcode
                    questions answers authorities additionals, b).

(** ** Names *)

(** The body of the label loop of [writeQName] for one label, appended to
    the bytes [b] written so far; [None] stands for the early [return nil]. *)
Definition writeLabel (b : list byte) (label : string) : option (list byte) :=
  let l := Z.of_nat (String.length label) in
  if 0x3f <? l then None
  else Some ((b ++ [toByte (uint8 l)]) ++ map (fun by_ => toByte (uint8 by_)) (runes label)).

Fixpoint writeLabels (s : list string) (b : list byte) : option (list byte) :=
  match s with
  | [] => Some b
  | label :: s' =>
      match writeLabel b label with
      | Some b' => writeLabels s' b'
      | None => None
      end
  end.

(** [func writeQName(qname string) []byte] *)
Definition writeQName (qname : string) : list byte :=
  let s := SplitDot qname in
  match writeLabels s [] with
  | Some b => b ++ [toByte 0]
  | None => []
  end.

(** The [for] loop of [readQName].  The loop reads [buff[pos]] and, after a
    length byte, [buff[pos+1]], and what is returned in the end is
    [buff[pos:]]: the state carries [rest = buff[pos:]] for the pair of
    [buff] and [pos], next to [str] and [labelLen].  It returns at the
    [break]. *)
Fixpoint readLabels (rest : list byte) (str : string) (labelLen : Z)
  : outcome (string * list byte) :=
  match rest with
  | [] => Panic BoundsError
  | c :: rest1 =>
      if byteZ c =? 0 then Return (str, rest)
      else if labelLen =? 0 then
        let str := (str ++ ".")%string in
        let labelLen := uint8 (byteZ c) in
        match rest1 with
        | [] => Panic BoundsError
        | c1 :: rest2 =>
            readLabels rest2 (str ++ stringOfByte c1)%string (uint8 (labelLen - 1))
        end
      else readLabels rest1 (str ++ stringOfByte c)%string (uint8 (labelLen - 1))
  end.

(** [func readQName(buff []byte) (string, []byte)] *)
Definition readQName (buff : list byte) : outcome (string * list byte) :=
  c <- index buff 0 ;;
  let labelLen := uint8 (byteZ c) in
  buff <- sliceFrom buff 1 ;;
  if 63 <? labelLen then Panic (ErrorValue ErrorInvalidQNameLength)
  else if len buff <? 1 then Panic (ErrorValue ErrorInvalidQNameLength)
  else
    '(str, rest) <- readLabels buff EmptyString labelLen ;;
    if Z.of_nat (String.length str) <? 1
    then Panic (ErrorValue ErrorInvalidQNameLength)
    else Return (str, rest).

(** ** Question *)

Module question.

Record t : Set := mk {
  qname : string;
  qtype : Z;   (* uint16 *)
  qclass : Z   (* uint16 *)
}.

(** [func (q question) Write() []byte]: the buffer is built and the
    function ends in [return nil]. *)
Definition Write (q : t) : list byte :=
  let buff := [] in
  let qname := writeQName (qname q) in
  let buff := buff ++ qname in
  let s := [ toByte (uint8 (Z.shiftr (qtype q) 8));
             toByte (uint8 (Z.land (qtype q) 0xff));
             toByte (uint8 (Z.shiftr (qclass q) 8));
             toByte (uint8 (Z.land (qclass q) 0xff)) ] in
  let buff := buff ++ s in
  [].

End question.

(** [func newQuestion(b []byte)], returning the question and the unread
    bytes.  [b[0]] is the operand of the first [fmt.Println]. *)
Definition newQuestion (b : list byte) : outcome (question.t * list byte) :=
  '(qname, b) <- readQName b ;;
  _ <- index b 0 ;;
  b12 <- sliceFrom b 12 ;;
  '(qtype, b) <- read16 b12 ;;
  '(qclass, b) <- read16 b ;;
  Return (question.mk qname qtype qclass, b).

(** ** Resource record *)

Module resourceRecord.

Record t : Set := mk {
  name : string;
  rtype : Z;   (* uint16 *)
  class : Z;   (* uint16 *)
  ttl : Z;     (* uint32 *)
  length : Z;  (* uint16 *)
  rdata : Z    (* uint32 *)
}.

Definition setName (rr : t) (n : string) : t :=
  mk n (rtype rr) (class rr) (ttl rr) (length rr) (rdata rr).

(** [func (rr resourceRecord) Write() []byte] *)
Definition Write (rr : t) : list byte :=
  let bb := [] in
  let qname := writeQName (name rr) in
  let bb := bb ++ qname in
  let r := [ toByte (uint8 (Z.shiftr (rtype rr) 8));
             toByte (uint8 (Z.land (rtype rr) 0xff));
             toByte (uint8 (Z.shiftr (class rr) 8));
             toByte (uint8 (Z.land (class rr) 0xff));
             toByte (uint8 (Z.land (Z.shiftr (ttl rr) 24) 0xff));
             toByte (uint8 (Z.land (Z.shiftr (ttl rr) 16) 0xff));
             toByte (uint8 (Z.land (Z.shiftr (ttl rr) 8) 0xff));
             toByte (uint8 (Z.land (Z.shiftr (ttl rr) 0) 0xff));
             toByte (uint8 (Z.shiftr (length rr) 8));
             toByte (uint8 (Z.land (length rr) 0xff));
             toByte (uint8 (Z.land (Z.shiftr (rdata rr) 24) 0xff));
             toByte (uint8 (Z.land (Z.shiftr (rdata rr) 16) 0xff));
             toByte (uint8 (Z.land (Z.shiftr (rdata rr) 8) 0xff));
             toByte (uint8 (Z.land (Z.shiftr (rdata rr) 0) 0xff)) ] in
  let r := r ++ bb in
  r.

End resourceRecord.

(** [func newResourceRecord(b []byte)], returning the record and the unread
    bytes.  [rr.name] keeps the zero value of its type. *)
Definition newResourceRecord (b : list byte) : outcome (resourceRecord.t * list byte) :=
  '(rtype, b) <- read16 b ;;
  '(class, b) <- read16 b ;;
  '(ttl, b) <- read32 b ;;
  '(length, b) <- read16 b ;;
  '(rdata, b) <- read32 b ;;
  Return (resourceRecord.mk EmptyString rtype class ttl length rdata, b).

(** ** Message *)

Module Message.

Record t : Set := mk {
  hdr : header.t;
  q : question.t;
  rr : resourceRecord.t
}.

(** [func (m Message) Write() []byte] *)
Definition Write (m : t) : list byte :=
  let bb := [] in
  let bb := bb ++ header.Write (hdr m) in
  let bb := bb ++ question.Write (q m) in
  let bb := bb ++ resourceRecord.Write (rr m) in
  bb.

End Message.

(** [func NewMessage(b []byte) *Message].  The result of [hdr.Write()] is
    dropped. *)
Definition NewMessage (b : list byte) : outcome Message.t :=
  '(hdr, b) <- NewHeader b ;;
  let _ := header.Write hdr in
  '(q, b) <- newQuestion b ;;
  '(rr, b) <- newResourceRecord b ;;
  let rr := resourceRecord.setName rr (question.qname q) in
  Return (Message.mk hdr q rr).

(** ** The earlier copies of the package

    The file holds two earlier copies of the package before the one above.
    Their [read16], [read32] and mask constants are the same text as above
    and are shared.  Their slice expressions [b[0:11]] and [b[0:12]] are
    followed by [b[12:]] or by reads of at least as many bytes, so that, as
    for [read16], the capacity of the buffer does not change which calls
    return or what they return. *)

(** The first copy: flags as booleans, names as fixed runs of bytes. *)
Module Snapshot1.

Module header.

Record t : Set := mk {
  id : Z;           (* uint16 *)
  qr : bool;
  opcode : Z;       (* uint8 *)
  aa : bool;
  tc : bool;
  rd : bool;
  ra : bool;
  z : bool;
  rcode : Z;        (* uint8 *)
  questions : Z;    (* uint16 *)
  answers : Z;      (* uint16 *)
  authorities : Z;  (* uint16 *)
  additionals : Z   (* uint16 *)
}.

End header.

(** [func NewHeader(b []byte)] of the first copy. *)
Definition NewHeader (b : list byte) : outcome (header.t * list byte) :=
  '(id, b) <- read16 b ;;
  '(qinfo, b) <- read16 b ;;
  let qr := 0 <? Z.shiftr (Z.land qinfo QrMask) 15 in
  let aa := 0 <? Z.shiftr (Z.land qinfo AAMask) 10 in
  let tc := 0 <? Z.shiftr (Z.land qinfo TCMask) 9 in
  let rd := 0 <? Z.shiftr (Z.land qinfo RDMask) 8 in
  let ra := 0 <? Z.shiftr (Z.land qinfo RAMask) 7 in
  let z := 0 <? Z.shiftr (Z.land qinfo ZMask) 6 in
  let rcode := uint8 (Z.land qinfo RCodeMask) in
  let opcode := uint8 (Z.shiftr (Z.land qinfo OPCodeMask) 11) in
  '(questions, b) <- read16 b ;;
  '(answers, b) <- read16 b ;;
  '(authorities, b) <- read16 b ;;
  '(additionals, b) <- read16 b ;;
  Return (header.mk id qr opcode aa tc rd ra z rcode
                    questions answers authorities additionals, b).

Module question.

Record t : Set := mk {
  qname : list byte;
  qtype : Z;   (* uint16 *)
  qclass : Z   (* uint16 *)
}.

End question.

(** [func newQuestion(b []byte)] of the first copy. *)
Definition newQuestion (b : list byte) : outcome (question.t * list byte) :=
  qname <- sliceTo b 12 ;;
  b12 <- sliceFrom b 12 ;;
  '(qtype, b) <- read16 b12 ;;
  '(qclass, b) <- read16 b ;;
  Return (question.mk qname qtype qclass, b).

Module resourceRecord.

Record t : Set := mk {
  name : list byte;
  rtype : Z;   (* uint16 *)
  class : Z;   (* uint16 *)
  ttl : Z;     (* uint32 *)
  length : Z;  (* uint16 *)
  rdata : Z    (* uint32 *)
}.

End resourceRecord.

(** [func newResourceRecord(b []byte)] of the first copy. *)
Definition newResourceRecord (b : list byte) : outcome (resourceRecord.t * list byte) :=
  name <- sliceTo b 11 ;;
  '(rtype, b) <- read16 b ;;
  '(class, b) <- read16 b ;;
  '(ttl, b) <- read32 b ;;
  '(length, b) <- read16 b ;;
  '(rdata, b) <- read32 b ;;
  Return (resourceRecord.mk name rtype class ttl length rdata, b).

Module Message.

Record t : Set := mk {
  hdr : header.t;
  q : question.t;
  rr : resourceRecord.t
}.

End Message.

(** [func NewMessage(b []byte) *Message] of the first copy. *)
Definition NewMessage (b : list byte) : outcome Message.t :=
  '(hdr, b) <- NewHeader b ;;
  '(q, b) <- newQuestion b ;;
  '(rr, b) <- newResourceRecord b ;;
  Return (Message.mk hdr q rr).

End Snapshot1.

(** The second copy: the header keeps the flags word, and methods take the
    flags out of it. *)
Module Snapshot2.

Module header.

Record t : Set := mk {
  id : Z;       (* uint16 *)
  qinfo : Z;    (* uint16 *)
  qdcount : Z;  (* uint16 *)
  ancount : Z;  (* uint16 *)
  nscount : Z;  (* uint16 *)
  arcount : Z   (* uint16 *)
}.

Definition qr (hdr : t) : Z := Z.shiftr (Z.land (qinfo hdr) QrMask) 15.
Definition aa (hdr : t) : Z := Z.shiftr (Z.land (qinfo hdr) AAMask) 10.
Definition opcode (hdr : t) : Z := Z.shiftr (Z.land (qinfo hdr) OPCodeMask) 11.
Definition tc (hdr : t) : Z := Z.shiftr (Z.land (qinfo hdr) TCMask) 9.
Definition rd (hdr : t) : Z := Z.shiftr (Z.land (qinfo hdr) RDMask) 8.
Definition ra (hdr : t) : Z := Z.shiftr (Z.land (qinfo hdr) RAMask) 7.
Definition z (hdr : t) : Z := Z.shiftr (Z.land (qinfo hdr) ZMask) 6.
Definition rcode (hdr : t) : Z := Z.land (qinfo hdr) RCodeMask.

End header.

(** [func NewHeader(b []byte)] of the second copy. *)
Definition NewHeader (b : list byte) : outcome (header.t * list byte) :=
  '(id, b) <- read16 b ;;
  '(qinfo, b) <- read16 b ;;
  '(qdcount, b) <- read16 b ;;
  '(ancount, b) <- read16 b ;;
  '(nscount, b) <- read16 b ;;
  '(arcount, b) <- read16 b ;;
  Return (header.mk id qinfo qdcount ancount nscount arcount, b).

Module question.

Record t : Set := mk {
  qname : list byte;
  qtype : Z;   (* uint16 *)
  qclass : Z   (* uint16 *)
}.

End question.

(** [func NewQuestion(b []byte)] of the second copy. *)
Definition NewQuestion (b : list byte) : outcome (question.t * list byte) :=
  qname <- sliceTo b 11 ;;
  b12 <- sliceFrom b 12 ;;
  '(qtype, b) <- read16 b12 ;;
  '(qclass, b) <- read16 b ;;
  Return (question.mk qname qtype qclass, b).

Module Message.

Record t : Set := mk {
  hdr : header.t;
  q : question.t
}.

End Message.

(** [func NewMessage(b []byte) *Message] of the second copy. *)
Definition NewMessage (b : list byte) : outcome Message.t :=
  '(hdr, b) <- NewHeader b ;;
  '(q, b) <- NewQuestion b ;;
  Return (Message.mk hdr q).

End Snapshot2.

(** The flags the methods of the second copy take out of the flags word
    made of the bytes [x2] and [x3], compared with the bits of the two
    bytes. *)
Definition accessorCheck (x2 x3 : Z) : bool :=
  let hdr := Snapshot2.header.mk 0 (256 * x2 + x3) 0 0 0 0 in
  (Snapshot2.header.qr hdr =? x2 / 128) &&
  (Snapshot2.header.opcode hdr =? (x2 / 8) mod 16) &&
  (Snapshot2.header.aa hdr =? (x2 / 4) mod 2) &&
  (Snapshot2.header.tc hdr =? (x2 / 2) mod 2) &&
  (Snapshot2.header.rd hdr =? x2 mod 2) &&
  (Snapshot2.header.ra hdr =? x3 / 128) &&
  (Snapshot2.header.z hdr =? (x3 / 64) mod 2) &&
  (Snapshot2.header.rcode hdr =? x3 mod 64).

(** The header of the third copy that holds what the methods of a header of
    the second copy return. *)
Definition fieldsOf (hdr : Snapshot2.header.t) : header.t :=
  header.mk (Snapshot2.header.id hdr) (Snapshot2.header.qr hdr)
    (Snapshot2.header.opcode hdr) (Snapshot2.header.aa hdr)
    (Snapshot2.header.tc hdr) (Snapshot2.header.rd hdr)
    (Snapshot2.header.ra hdr) (Snapshot2.header.z hdr)
    (Snapshot2.header.rcode hdr) (Snapshot2.header.qdcount hdr)
    (Snapshot2.header.ancount hdr) (Snapshot2.header.nscount hdr)
    (Snapshot2.header.arcount hdr).

(** The header of the first copy that holds the fields of a header of the
    third copy, a flag being true when the field is not 0. *)
Definition flagsAsBool (hdr : header.t) : Snapshot1.header.t :=
  Snapshot1.header.mk (header.id hdr) (0 <? header.qr hdr) (header.opcode hdr)
    (0 <? header.aa hdr) (0 <? header.tc hdr) (0 <? header.rd hdr)
    (0 <? header.ra hdr) (0 <? header.z hdr) (header.rcode hdr)
    (header.questions hdr) (header.answers hdr) (header.authorities hdr)
    (header.additionals hdr).

(** ** Test data *)

(** The header [00 01 01 00 00 01 00 00 00 00 00 00]. *)
Definition e2eHeader : list byte :=
  [x00; x01; x01; x00; x00; x01; x00; x00; x00; x00; x00; x00].

(** The wire form of [example.com]: 7 "example" 3 "com" 0. *)
Definition e2eName : list byte :=
  [x07; x65; x78; x61; x6d; x70; x6c; x65; x03; x63; x6f; x6d; x00].

(** qtype 1 and qclass 1. *)
Definition e2eFields : list byte := [x00; x01; x00; x01].

(** A record tail: type 1, class 1, ttl 60, length 4, data 93.184.216.34. *)
Definition e2eTail : list byte :=
  [x00; x01; x00; x01; x00; x00; x00; x3c; x00; x04; x5d; xb8; xd8; x22].

Definition e2eInput : list byte := e2eHeader ++ e2eName ++ e2eFields ++ e2eTail.

(** The same datagram in a receive buffer of 128 bytes, as the resolver
    hands it over. *)
Definition e2eDatagram : list byte := e2eInput ++ repeat x00 85.

(** A header with [qr] and [rd] set: id 1, one question. *)
Definition responseHeader : header.t :=
  header.mk 1 1 0 0 0 1 0 0 0 1 0 0 0.

(** The header of [e2eHeader]: a query, id 1, rd set, one question. *)
Definition queryHeader : header.t :=
  header.mk 1 0 0 0 0 1 0 0 0 1 0 0 0.

(** A call that hands a value back to its caller, which is how a Go function
    reports an error value. *)
Definition returns {A : Type} (m : outcome A) : Prop := exists a, m = Return a.

(** The first ten bytes of [e2eHeader]. *)
Definition tenBytes : list byte :=
  [x00; x01; x01; x00; x00; x01; x00; x00; x00; x00].

(** Headers that agree on every field but [qr] and [z]. *)
Definition sameButQrZ (h1 h2 : header.t) : Prop :=
  header.id h1 = header.id h2 /\ header.opcode h1 = header.opcode h2 /\
  header.aa h1 = header.aa h2 /\ header.tc h1 = header.tc h2 /\
  header.rd h1 = header.rd h2 /\ header.ra h1 = header.ra h2 /\
  header.rcode h1 = header.rcode h2 /\
  header.questions h1 = header.questions h2 /\
  header.answers h1 = header.answers h2 /\
  header.authorities h1 = header.authorities h2 /\
  header.additionals h1 = header.additionals h2.

(** The integers from 0 up to [n], excluded. *)
Definition below (n : nat) : list Z := map Z.of_nat (seq 0 n).

(** The flags byte of [header.Write] followed by the [rcode] byte, taken
    apart with the masks and shifts of [NewHeader], compared with the fields
    that went in. *)
Definition flagsCheck (rd tc aa opcode ra rcode : Z) : bool :=
  let flags := Z.lor (Z.lor (Z.lor (Z.lor rd (uint8 (Z.shiftl tc 1)))
                                   (uint8 (Z.shiftl aa 2)))
                            (uint8 (Z.shiftl opcode 3)))
                     (uint8 (Z.shiftl ra 7)) in
  let qinfo := 256 * uint8 flags + uint8 rcode in
  (uint8 (Z.shiftr (Z.land qinfo QrMask) 15) =? ra) &&
  (uint8 (Z.shiftr (Z.land qinfo OPCodeMask) 11) =? opcode) &&
  (uint8 (Z.shiftr (Z.land qinfo AAMask) 10) =? aa) &&
  (uint8 (Z.shiftr (Z.land qinfo TCMask) 9) =? tc) &&
  (uint8 (Z.shiftr (Z.land qinfo RDMask) 8) =? rd) &&
  (uint8 (Z.shiftr (Z.land qinfo RAMask) 7) =? 0) &&
  (uint8 (Z.shiftr (Z.land qinfo ZMask) 6) =? 0) &&
  (uint8 (Z.land qinfo RCodeMask) =? rcode).


(** The names the round trip of the name codec is stated for: every label
    has 1 to 63 characters, each with a code point from 1 to 0x7F. *)
Definition plainChar (c : ascii) : bool := (0 <? charZ c) && (charZ c <? 0x80).

Fixpoint plainString (s : string) : bool :=
  match s with
  | EmptyString => true
  | String c s' => plainChar c && plainString s'
  end.

Definition validLabel (l : string) : bool :=
  (1 <=? String.length l)%nat && (String.length l <=? 63)%nat && plainString l.

Definition validName (n : string) : bool := forallb validLabel (SplitDot n).

(** A label on the wire: its length, then its characters. *)
Definition labelWire (l : string) : list byte :=
  toByte (Z.of_nat (String.length l)) :: list_byte_of_string l.

Definition labelsWire (ls : list string) : list byte := List.concat (map labelWire ls).

(** Every label with a dot in front of it. *)
Definition dotted (ls : list string) : string :=
  fold_right (fun l acc => ("." ++ l ++ acc)%string) EmptyString ls.

(** The text [readQName] builds from the bytes of a label. *)
Definition textOf (bs : list byte) : string :=
  fold_right (fun c acc => (stringOfByte c ++ acc)%string) EmptyString bs.

(** A name whose second length byte is 64: 1 "a" 64 "bbb...b" 0. *)
Definition laterLengthName : list byte :=
  [x01; x61; x40] ++ repeat x62 64 ++ [x00].

(** A name whose first length byte is 64. *)
Definition firstLengthName : list byte := [x40] ++ repeat x61 64 ++ [x00].

(** A datagram with that name in the question. *)
Definition badLengthInput : list byte :=
  e2eHeader ++ firstLengthName ++ e2eFields ++ e2eTail.

(** A label of 64 characters and a message that carries it. *)
Definition longLabel : string := string_of_list_ascii (repeat "a"%char 64).

Definition tooLong (label : string) : bool := 0x3f <? Z.of_nat (String.length label).

Definition sampleRecord : resourceRecord.t :=
  resourceRecord.mk "example.com" 1 1 60 4 0x5db8d822.

Definition longLabelMessage : Message.t :=
  Message.mk responseHeader (question.mk longLabel 1 1)
    (resourceRecord.mk longLabel 1 1 60 4 0x5db8d822).

(** [responseHeader] with [qr] cleared and [z] set. *)
Definition queryHeaderZ : header.t :=
  header.mk 1 0 0 0 0 1 0 1 0 1 0 0 0.

(** The flag fields [NewHeader] takes from the flags word made of the bytes
    [x2] and [x3], compared with the bits of the two bytes. *)
Definition flagBitsCheck (x2 x3 : Z) : bool :=
  let qinfo := 256 * x2 + x3 in
  (uint8 (Z.shiftr (Z.land qinfo QrMask) 15) =? x2 / 128) &&
  (uint8 (Z.shiftr (Z.land qinfo OPCodeMask) 11) =? (x2 / 8) mod 16) &&
  (uint8 (Z.shiftr (Z.land qinfo AAMask) 10) =? (x2 / 4) mod 2) &&
  (uint8 (Z.shiftr (Z.land qinfo TCMask) 9) =? (x2 / 2) mod 2) &&
  (uint8 (Z.shiftr (Z.land qinfo RDMask) 8) =? x2 mod 2) &&
  (uint8 (Z.shiftr (Z.land qinfo RAMask) 7) =? x3 / 128) &&
  (uint8 (Z.shiftr (Z.land qinfo ZMask) 6) =? (x3 / 64) mod 2) &&
  (uint8 (Z.land qinfo RCodeMask) =? x3 mod 64).

(** The flags byte [header.Write] makes of the fields [NewHeader] took from
    the bytes [x2] and [x3], compared with the bits of the two bytes. *)
Definition flagsByteCheck (x2 x3 : Z) : bool :=
  uint8 (Z.lor (Z.lor (Z.lor (Z.lor (x2 mod 2)
                                    (uint8 (Z.shiftl ((x2 / 2) mod 2) 1)))
                             (uint8 (Z.shiftl ((x2 / 4) mod 2) 2)))
                      (uint8 (Z.shiftl ((x2 / 8) mod 16) 3)))
               (uint8 (Z.shiftl (x3 / 128) 7)))
  =? x2 mod 128 + 128 * (x3 / 128).

(** The bounds of the fields of a header that [NewHeader] returns. *)
Definition decodedRanges (hdr : header.t) : Prop :=
  0 <= header.id hdr < 2 ^ 16 /\ 0 <= header.qr hdr <= 1 /\
  0 <= header.opcode hdr < 16 /\ 0 <= header.aa hdr <= 1 /\
  0 <= header.tc hdr <= 1 /\ 0 <= header.rd hdr <= 1 /\
  0 <= header.ra hdr <= 1 /\ 0 <= header.z hdr <= 1 /\
  0 <= header.rcode hdr < 64 /\
  0 <= header.questions hdr < 2 ^ 16 /\ 0 <= header.answers hdr < 2 ^ 16 /\
  0 <= header.authorities hdr < 2 ^ 16 /\ 0 <= header.additionals hdr < 2 ^ 16.

(** A header with every flag set: opcode 15 and the second flags byte ff. *)
Definition allFlagsHeader : list byte :=
  [x12; x34; xff; xff; x00; x01; x00; x02; x00; x03; x00; x04].

(** The values a resource record can hold: each field within its Go type. *)
Definition recordInRange (rr : resourceRecord.t) : Prop :=
  0 <= resourceRecord.rtype rr < 2 ^ 16 /\ 0 <= resourceRecord.class rr < 2 ^ 16 /\
  0 <= resourceRecord.ttl rr < 2 ^ 32 /\ 0 <= resourceRecord.length rr < 2 ^ 16 /\
  0 <= resourceRecord.rdata rr < 2 ^ 32.

(** * Properties *)

(** ** Bytes and big-endian fields *)

Lemma byteZ_range (b : byte) : 0 <= byteZ b < 256.
Proof.
  unfold byteZ. pose proof (Byte.to_N_bounded b). lia.
Qed.

Lemma toByte_byteZ (b : byte) : toByte (byteZ b) = b.
Proof.
  unfold toByte, uint8. rewrite Z.mod_small by (pose proof (byteZ_range b); lia).
  unfold byteZ. rewrite N2Z.id, Byte.of_to_N. reflexivity.
Qed.

Lemma byteZ_toByte (x : Z) : byteZ (toByte x) = uint8 x.
Proof.
  unfold toByte, byteZ.
  assert (Hr : 0 <= uint8 x < 256) by (unfold uint8; apply Z.mod_pos_bound; lia).
  destruct (Byte.of_N (Z.to_N (uint8 x))) as [b|] eqn:E.
  - apply Byte.to_of_N in E. rewrite E. lia.
  - apply Byte.of_N_None_iff in E. lia.
Qed.

Lemma land_low_shiftl (x y k : Z) :
  0 <= k -> 0 <= x < 2 ^ k -> Z.land x (Z.shiftl y k) = 0.
Proof.
  intros Hk Hx. apply Z.bits_inj'. intros n Hn.
  rewrite Z.land_spec, Z.bits_0.
  destruct (Z.lt_ge_cases n k) as [Hlt|Hge].
  - rewrite Z.shiftl_spec_low by assumption. apply andb_false_r.
  - rewrite <- (Z.mod_small x (2 ^ k)) by assumption.
    rewrite Z.mod_pow2_bits_high by lia. reflexivity.
Qed.

Lemma lor_low_shiftl (x y k : Z) :
  0 <= k -> 0 <= x < 2 ^ k -> Z.lor x (Z.shiftl y k) = x + y * 2 ^ k.
Proof.
  intros Hk Hx.
  rewrite <- Z.lxor_lor by (apply land_low_shiftl; assumption).
  rewrite <- Z.add_nocarry_lxor by (apply land_low_shiftl; assumption).
  rewrite Z.shiftl_mul_pow2 by assumption. reflexivity.
Qed.

(** Two bytes read as a big-endian [uint16]. *)
Lemma BigEndianUint16_value (b0 b1 : byte) (rest : list byte) :
  BigEndianUint16 (b0 :: b1 :: rest) = Return (256 * byteZ b0 + byteZ b1).
Proof.
  pose proof (byteZ_range b0). pose proof (byteZ_range b1).
  unfold BigEndianUint16, uint16.
  rewrite (Z.mod_small (byteZ b0)), (Z.mod_small (byteZ b1)) by lia.
  rewrite Z.shiftl_mul_pow2 by lia.
  rewrite (Z.mod_small (byteZ b0 * 2 ^ 8)) by lia.
  rewrite <- Z.shiftl_mul_pow2 by lia.
  rewrite lor_low_shiftl by lia. f_equal. lia.
Qed.

(** Four bytes read as a big-endian [uint32]. *)
Lemma BigEndianUint32_value (b0 b1 b2 b3 : byte) (rest : list byte) :
  BigEndianUint32 (b0 :: b1 :: b2 :: b3 :: rest) =
  Return (2 ^ 24 * byteZ b0 + 2 ^ 16 * byteZ b1 + 2 ^ 8 * byteZ b2 + byteZ b3).
Proof.
  pose proof (byteZ_range b0). pose proof (byteZ_range b1).
  pose proof (byteZ_range b2). pose proof (byteZ_range b3).
  unfold BigEndianUint32, uint32.
  rewrite !Z.shiftl_mul_pow2 by lia.
  rewrite (Z.mod_small (byteZ b0)), (Z.mod_small (byteZ b1)),
    (Z.mod_small (byteZ b2)), (Z.mod_small (byteZ b3)) by lia.
  rewrite (Z.mod_small (byteZ b0 * 2 ^ 24)), (Z.mod_small (byteZ b1 * 2 ^ 16)),
    (Z.mod_small (byteZ b2 * 2 ^ 8)) by lia.
  rewrite <- !Z.shiftl_mul_pow2 by lia.
  rewrite (lor_low_shiftl (byteZ b3)) by lia.
  rewrite (lor_low_shiftl (byteZ b3 + byteZ b2 * 2 ^ 8)) by lia.
  rewrite (lor_low_shiftl (byteZ b3 + byteZ b2 * 2 ^ 8 + byteZ b1 * 2 ^ 16)) by lia.
  f_equal. lia.
Qed.

Lemma read16_cons (b0 b1 : byte) (rest : list byte) :
  read16 (b0 :: b1 :: rest) = Return (256 * byteZ b0 + byteZ b1, rest).
Proof.
  unfold read16. cbn [sliceTo List.length Nat.leb firstn bind].
  rewrite BigEndianUint16_value. reflexivity.
Qed.

Lemma read32_cons (b0 b1 b2 b3 : byte) (rest : list byte) :
  read32 (b0 :: b1 :: b2 :: b3 :: rest) =
  Return (2 ^ 24 * byteZ b0 + 2 ^ 16 * byteZ b1 + 2 ^ 8 * byteZ b2 + byteZ b3, rest).
Proof.
  unfold read32. cbn [sliceTo List.length Nat.leb firstn bind].
  rewrite BigEndianUint32_value. reflexivity.
Qed.

Lemma read16_short (b : list byte) :
  (List.length b < 2)%nat -> read16 b = Panic BoundsError.
Proof.
  destruct b as [|b0 [|b1 rest]]; cbn [List.length]; intros H;
    [reflexivity | reflexivity | lia].
Qed.

Lemma read32_short (b : list byte) :
  (List.length b < 4)%nat -> read32 b = Panic BoundsError.
Proof.
  destruct b as [|b0 [|b1 [|b2 [|b3 rest]]]]; cbn [List.length]; intros H;
    try reflexivity; lia.
Qed.

(** [read16] and [read32] either panic with a bounds error or hand back the
    bytes after the field. *)
Lemma read16_cases (b : list byte) :
  (read16 b = Panic BoundsError /\ (List.length b < 2)%nat) \/
  (exists v, read16 b = Return (v, skipn 2 b) /\ (2 <= List.length b)%nat).
Proof.
  destruct b as [|b0 [|b1 rest]].
  - left. split; [reflexivity | cbn; lia].
  - left. split; [reflexivity | cbn; lia].
  - right. eexists. rewrite read16_cons. split; [reflexivity | cbn; lia].
Qed.

Lemma read32_cases (b : list byte) :
  (read32 b = Panic BoundsError /\ (List.length b < 4)%nat) \/
  (exists v, read32 b = Return (v, skipn 4 b) /\ (4 <= List.length b)%nat).
Proof.
  destruct b as [|b0 [|b1 [|b2 [|b3 rest]]]];
    try (left; split; [reflexivity | cbn; lia]).
  right. eexists. rewrite read32_cons. split; [reflexivity | cbn; lia].
Qed.

(** ** Header *)

Ltac step_read16 := rewrite read16_cons; cbn [bind].
Ltac step_read32 := rewrite read32_cons; cbn [bind].

Lemma NewHeader_short (b : list byte) :
  (List.length b < 12)%nat -> NewHeader b = Panic BoundsError.
Proof.
  intros H. unfold NewHeader.
  do 12 (destruct b as [|? b];
         [repeat step_read16; reflexivity | cbn [List.length] in H]).
  lia.
Qed.

Lemma NewHeader_long (b : list byte) :
  (12 <= List.length b)%nat -> exists hdr, NewHeader b = Return (hdr, skipn 12 b).
Proof.
  intros H.
  do 12 (destruct b as [|? b]; [cbn [List.length] in H; lia|]).
  unfold NewHeader. repeat step_read16. eexists. reflexivity.
Qed.

Lemma In_below (n : nat) (x : Z) : 0 <= x < Z.of_nat n -> In x (below n).
Proof.
  intros H. unfold below. apply in_map_iff. exists (Z.to_nat x).
  split; [lia | apply in_seq; lia].
Qed.

Lemma flagsAll_true :
  forallb (fun rd => forallb (fun tc => forallb (fun aa =>
  forallb (fun opcode => forallb (fun ra => forallb (fun rcode =>
    flagsCheck rd tc aa opcode ra rcode)
  (below 16)) (below 2)) (below 16)) (below 2)) (below 2)) (below 2) = true.
Proof. vm_compute. reflexivity. Qed.

Lemma flagsCheck_true (rd tc aa opcode ra rcode : Z) :
  0 <= rd < 2 -> 0 <= tc < 2 -> 0 <= aa < 2 -> 0 <= opcode < 2 ^ 4 ->
  0 <= ra < 2 -> 0 <= rcode < 2 ^ 4 ->
  flagsCheck rd tc aa opcode ra rcode = true.
Proof.
  intros Hrd Htc Haa Hop Hra Hrc.
  pose proof (proj1 (forallb_forall _ _) flagsAll_true rd (In_below 2 rd Hrd)) as H.
  pose proof (proj1 (forallb_forall _ _) H tc (In_below 2 tc Htc)) as H1.
  pose proof (proj1 (forallb_forall _ _) H1 aa (In_below 2 aa Haa)) as H2.
  pose proof (proj1 (forallb_forall _ _) H2 opcode (In_below 16 opcode Hop)) as H3.
  pose proof (proj1 (forallb_forall _ _) H3 ra (In_below 2 ra Hra)) as H4.
  exact (proj1 (forallb_forall _ _) H4 rcode (In_below 16 rcode Hrc)).
Qed.

(** The flags word that [header.Write] produces, read back by [NewHeader]:
    [ra] is found where [qr] is looked for, and [ra] and [z] are looked for
    in the byte that holds only [rcode]. *)
Lemma flags_word_readback (rd tc aa opcode ra rcode : Z) :
  0 <= rd < 2 -> 0 <= tc < 2 -> 0 <= aa < 2 -> 0 <= opcode < 2 ^ 4 ->
  0 <= ra < 2 -> 0 <= rcode < 2 ^ 4 ->
  let flags := Z.lor (Z.lor (Z.lor (Z.lor rd (uint8 (Z.shiftl tc 1)))
                                   (uint8 (Z.shiftl aa 2)))
                            (uint8 (Z.shiftl opcode 3)))
                     (uint8 (Z.shiftl ra 7)) in
  let qinfo := 256 * uint8 flags + uint8 rcode in
  uint8 (Z.shiftr (Z.land qinfo QrMask) 15) = ra /\
  uint8 (Z.shiftr (Z.land qinfo OPCodeMask) 11) = opcode /\
  uint8 (Z.shiftr (Z.land qinfo AAMask) 10) = aa /\
  uint8 (Z.shiftr (Z.land qinfo TCMask) 9) = tc /\
  uint8 (Z.shiftr (Z.land qinfo RDMask) 8) = rd /\
  uint8 (Z.shiftr (Z.land qinfo RAMask) 7) = 0 /\
  uint8 (Z.shiftr (Z.land qinfo ZMask) 6) = 0 /\
  uint8 (Z.land qinfo RCodeMask) = rcode.
Proof.
  intros Hrd Htc Haa Hop Hra Hrc.
  pose proof (flagsCheck_true rd tc aa opcode ra rcode Hrd Htc Haa Hop Hra Hrc) as H.
  unfold flagsCheck in H. rewrite !andb_true_iff, !Z.eqb_eq in H.
  cbv zeta. tauto.
Qed.

(** The two bytes [header.Write] emits for a 16-bit field, read back. *)
Lemma uint16_bytes_readback (x : Z) :
  0 <= x < 2 ^ 16 ->
  256 * uint8 (uint8 (Z.shiftr x 8)) + uint8 (uint8 (Z.land x 0xff)) = x.
Proof.
  intros Hx. unfold uint8.
  rewrite Z.shiftr_div_pow2 by lia.
  change 0xff with (Z.ones 8). rewrite Z.land_ones by lia.
  rewrite !Z.mod_mod by lia.
  rewrite (Z.mod_small (x / 2 ^ 8)).
  - pose proof (Z.div_mod x (2 ^ 8)). lia.
  - split; [apply Z.div_pos; lia | apply Z.div_lt_upper_bound; lia].
Qed.

(** What a representable header becomes when written and read back. *)
Lemma header_readback (hdr : header.t) (rest : list byte) :
  header.representable hdr ->
  NewHeader (header.Write hdr ++ rest) =
  Return (header.mk (header.id hdr) (header.ra hdr) (header.opcode hdr)
            (header.aa hdr) (header.tc hdr) (header.rd hdr) 0 0
            (header.rcode hdr) (header.questions hdr) (header.answers hdr)
            (header.authorities hdr) (header.additionals hdr), rest).
Proof.
  destruct hdr as [id qr opcode aa tc rd ra z rcode qd an ns ar].
  unfold header.representable. cbn [header.id header.qr header.opcode header.aa
    header.tc header.rd header.ra header.z header.rcode header.questions
    header.answers header.authorities header.additionals].
  intros (Hid & Hqr & Hop & Haa & Htc & Hrd & Hra & Hz & Hrc & Hqd & Han & Hns & Har).
  unfold NewHeader, header.Write. cbn [header.id header.qr header.opcode header.aa
    header.tc header.rd header.ra header.z header.rcode header.questions
    header.answers header.authorities header.additionals app].
  repeat step_read16. rewrite !byteZ_toByte.
  rewrite !uint16_bytes_readback by assumption.
  destruct (flags_word_readback rd tc aa opcode ra rcode Hrd Htc Haa Hop Hra Hrc)
    as (E1 & E2 & E3 & E4 & E5 & E6 & E7 & E8).
  cbv zeta in E1, E2, E3, E4, E5, E6, E7, E8.
  rewrite E1, E2, E3, E4, E5, E6, E7, E8. reflexivity.
Qed.


(** ** Names *)

Lemma append_assoc (a b c : string) : ((a ++ b) ++ c)%string = (a ++ (b ++ c))%string.
Proof. induction a as [|x a IH]; cbn; [reflexivity | rewrite IH; reflexivity]. Qed.

Lemma append_nil_r (a : string) : (a ++ "")%string = a.
Proof. induction a as [|x a IH]; cbn; [reflexivity | rewrite IH; reflexivity]. Qed.

Lemma SplitDot_nonempty (s : string) : SplitDot s <> [].
Proof.
  destruct s as [|c s]; cbn [SplitDot]; [discriminate|].
  destruct (Ascii.eqb c "."); [discriminate|].
  destruct (SplitDot s); discriminate.
Qed.

(** Joining the pieces of [strings.Split(s, ".")] with dots gives [s] back. *)
Lemma concat_SplitDot (s : string) : String.concat "." (SplitDot s) = s.
Proof.
  induction s as [|c s IH]; [reflexivity|].
  cbn [SplitDot]. pose proof (SplitDot_nonempty s) as Hne.
  destruct (SplitDot s) as [|p ps]; [congruence|].
  destruct (Ascii.eqb c ".") eqn:E.
  - apply Ascii.eqb_eq in E. subst c.
    change (String.concat "." (EmptyString :: p :: ps))
      with (String "." (String.concat "." (p :: ps))).
    rewrite IH. reflexivity.
  - destruct ps as [|p' ps].
    + cbn in IH |- *. rewrite IH. reflexivity.
    + change (String.concat "." (String c p :: p' :: ps))
        with (String c (String.concat "." (p :: p' :: ps))).
      rewrite IH. reflexivity.
Qed.

Lemma concat_dotted (l : string) (ls : list string) :
  String.concat "." (l :: ls) = (l ++ dotted ls)%string.
Proof.
  revert l. induction ls as [|l' ls IH]; intros l.
  - cbn. rewrite append_nil_r. reflexivity.
  - change (String.concat "." (l :: l' :: ls))
      with (l ++ "." ++ String.concat "." (l' :: ls))%string.
    rewrite IH. reflexivity.
Qed.

Lemma toByte_uint8 (x : Z) : toByte (uint8 x) = toByte x.
Proof. unfold toByte, uint8. rewrite Z.mod_mod by lia. reflexivity. Qed.

Lemma toByte_charZ (c : ascii) : toByte (charZ c) = byte_of_ascii c.
Proof. unfold charZ. apply toByte_byteZ. Qed.

Lemma charOf_charZ (c : ascii) : charOf (charZ c) = c.
Proof. unfold charOf. rewrite toByte_charZ. apply ascii_of_byte_of_ascii. Qed.

Lemma stringOfByte_plain (c : ascii) :
  plainChar c = true -> stringOfByte (byte_of_ascii c) = String c EmptyString.
Proof.
  unfold plainChar, stringOfByte. intros H. apply andb_true_iff in H as [_ H].
  fold (charZ c). cbv zeta. rewrite H, charOf_charZ. reflexivity.
Qed.

(** Ranging over a plain string yields its characters one by one. *)
Lemma runes_plain (s : string) :
  plainString s = true -> runes s = map charZ (list_ascii_of_string s).
Proof.
  induction s as [|c s IH]; intros H; [reflexivity|].
  cbn [plainString] in H. apply andb_true_iff in H as [Hc Hs].
  unfold plainChar in Hc. apply andb_true_iff in Hc as [_ Hc].
  cbn [runes list_ascii_of_string map]. cbv zeta. rewrite Hc, (IH Hs). reflexivity.
Qed.

Lemma writeLabel_valid (b : list byte) (l : string) :
  validLabel l = true -> writeLabel b l = Some (b ++ labelWire l).
Proof.
  unfold validLabel, writeLabel, labelWire. intros H.
  apply andb_true_iff in H as [H Hp]. apply andb_true_iff in H as [H1 H2].
  apply Nat.leb_le in H2. cbv zeta.
  replace (63 <? Z.of_nat (String.length l)) with false by (symmetry; apply Z.ltb_ge; lia).
  rewrite runes_plain by assumption. rewrite toByte_uint8, <- app_assoc.
  unfold list_byte_of_string. rewrite map_map. cbn [app]. do 3 f_equal.
  apply map_ext. intros c. rewrite toByte_uint8. apply toByte_charZ.
Qed.

Lemma writeLabels_valid (ls : list string) (b : list byte) :
  forallb validLabel ls = true -> writeLabels ls b = Some (b ++ labelsWire ls).
Proof.
  revert b. induction ls as [|l ls IH]; intros b H.
  - cbn. rewrite app_nil_r. reflexivity.
  - cbn [forallb] in H. apply andb_true_iff in H as [Hl Hls].
    cbn [writeLabels]. rewrite (writeLabel_valid b l Hl), (IH _ Hls).
    unfold labelsWire. cbn [map List.concat]. rewrite <- app_assoc. reflexivity.
Qed.

(** The encoding of a valid name: its labels, then a zero byte. *)
Lemma writeQName_valid (n : string) :
  validName n = true -> writeQName n = labelsWire (SplitDot n) ++ [x00].
Proof.
  unfold validName, writeQName. intros H. cbv zeta.
  rewrite (writeLabels_valid _ [] H). reflexivity.
Qed.

(** One step of the label loop. *)
Lemma readLabels_inside (c : byte) (rest : list byte) (str : string) (labelLen : Z) :
  byteZ c <> 0 -> labelLen <> 0 ->
  readLabels (c :: rest) str labelLen =
  readLabels rest (str ++ stringOfByte c)%string (uint8 (labelLen - 1)).
Proof.
  intros Hc Hl. cbn [readLabels].
  apply Z.eqb_neq in Hc. apply Z.eqb_neq in Hl. rewrite Hc, Hl. reflexivity.
Qed.

Lemma readLabels_length (c c1 : byte) (rest : list byte) (str : string) :
  byteZ c <> 0 ->
  readLabels (c :: c1 :: rest) str 0 =
  readLabels rest ((str ++ ".") ++ stringOfByte c1)%string (uint8 (uint8 (byteZ c) - 1)).
Proof.
  intros Hc. cbn [readLabels]. apply Z.eqb_neq in Hc. rewrite Hc. reflexivity.
Qed.

Lemma readLabels_zero (rest : list byte) (str : string) (labelLen : Z) :
  readLabels (x00 :: rest) str labelLen = Return (str, x00 :: rest).
Proof. reflexivity. Qed.

Lemma plainChar_nonzero (c : ascii) : plainChar c = true -> byteZ (byte_of_ascii c) <> 0.
Proof.
  unfold plainChar, charZ. intros H. apply andb_true_iff in H as [H _].
  apply Z.ltb_lt in H. lia.
Qed.

(** The characters of a label, once its length is in [labelLen]. *)
Lemma readLabels_chars (l : string) (str : string) (tail : list byte) :
  plainString l = true -> (String.length l <= 255)%nat ->
  readLabels (list_byte_of_string l ++ tail) str (Z.of_nat (String.length l)) =
  readLabels tail (str ++ l)%string 0.
Proof.
  revert str. induction l as [|c l IH]; intros str Hp Hlen.
  - cbn. rewrite append_nil_r. reflexivity.
  - cbn [plainString] in Hp. apply andb_true_iff in Hp as [Hc Hp].
    cbn [String.length] in Hlen |- *.
    change (list_byte_of_string (String c l) ++ tail)
      with (byte_of_ascii c :: (list_byte_of_string l ++ tail)).
    rewrite readLabels_inside by (try apply plainChar_nonzero; try assumption; lia).
    rewrite stringOfByte_plain by assumption.
    replace (uint8 (Z.of_nat (S (String.length l)) - 1))
      with (Z.of_nat (String.length l))
      by (unfold uint8; rewrite Z.mod_small; lia).
    rewrite IH by (try assumption; lia).
    rewrite append_assoc. reflexivity.
Qed.

Lemma byteZ_length (l : string) :
  (String.length l <= 63)%nat ->
  byteZ (toByte (Z.of_nat (String.length l))) = Z.of_nat (String.length l).
Proof.
  intros H. rewrite byteZ_toByte. unfold uint8. apply Z.mod_small. lia.
Qed.

(** A whole label met when the previous one is used up. *)
Lemma readLabels_label (l : string) (str : string) (tail : list byte) :
  validLabel l = true ->
  readLabels (labelWire l ++ tail) str 0 =
  readLabels tail (str ++ "." ++ l)%string 0.
Proof.
  unfold validLabel, labelWire. intros H.
  apply andb_true_iff in H as [H Hp]. apply andb_true_iff in H as [H1 H2].
  apply Nat.leb_le in H1, H2.
  pose proof (byteZ_length l H2) as Hb.
  destruct l as [|c l]; [cbn in H1; lia|].
  cbn [plainString] in Hp. apply andb_true_iff in Hp as [Hc Hp].
  change ((toByte (Z.of_nat (String.length (String c l)))
             :: list_byte_of_string (String c l)) ++ tail)
    with (toByte (Z.of_nat (String.length (String c l)))
            :: byte_of_ascii c :: (list_byte_of_string l ++ tail)).
  rewrite readLabels_length by (rewrite Hb; cbn [String.length]; lia).
  rewrite Hb, stringOfByte_plain by assumption.
  cbn [String.length] in H2 |- *.
  replace (uint8 (uint8 (Z.of_nat (S (String.length l))) - 1))
    with (Z.of_nat (String.length l))
    by (unfold uint8; rewrite !Z.mod_small; rewrite ?Z.mod_small; lia).
  rewrite readLabels_chars by (try assumption; lia).
  rewrite !append_assoc. reflexivity.
Qed.

Lemma readLabels_labels (ls : list string) (str : string) (rest : list byte) :
  forallb validLabel ls = true ->
  readLabels (labelsWire ls ++ x00 :: rest) str 0 =
  Return ((str ++ dotted ls)%string, x00 :: rest).
Proof.
  revert str. induction ls as [|l ls IH]; intros str H.
  - cbn. rewrite append_nil_r. reflexivity.
  - cbn [forallb] in H. apply andb_true_iff in H as [Hl Hls].
    unfold labelsWire. cbn [map List.concat]. rewrite <- app_assoc.
    rewrite readLabels_label by assumption.
    fold (labelsWire ls). rewrite IH by assumption.
    cbn [dotted fold_right]. rewrite !append_assoc. reflexivity.
Qed.

Lemma length_append (a b : string) :
  String.length (a ++ b) = (String.length a + String.length b)%nat.
Proof. induction a as [|x a IH]; cbn; [reflexivity | rewrite IH; reflexivity]. Qed.

(** [readQName] on the labels of a valid name, a zero byte and anything
    after it: the name, and the unread bytes starting at the zero byte. *)
Lemma readQName_labels (l : string) (ls : list string) (rest : list byte) :
  forallb validLabel (l :: ls) = true ->
  readQName (labelsWire (l :: ls) ++ x00 :: rest) =
  Return (String.concat "." (l :: ls), x00 :: rest).
Proof.
  intros H. cbn [forallb] in H. apply andb_true_iff in H as [Hl Hls].
  pose proof Hl as Hl'. unfold validLabel in Hl'.
  apply andb_true_iff in Hl' as [Hl' Hp]. apply andb_true_iff in Hl' as [H1 H2].
  apply Nat.leb_le in H1, H2.
  unfold labelsWire. cbn [map List.concat]. fold (labelsWire ls).
  unfold labelWire at 1. rewrite <- app_assoc. cbn [app].
  unfold readQName. cbn [index nth_error bind sliceFrom List.length Nat.leb skipn].
  rewrite byteZ_length by assumption.
  replace (uint8 (Z.of_nat (String.length l))) with (Z.of_nat (String.length l))
    by (unfold uint8; rewrite Z.mod_small; lia).
  replace (63 <? Z.of_nat (String.length l)) with false
    by (symmetry; apply Z.ltb_ge; lia).
  replace (len (list_byte_of_string l ++ labelsWire ls ++ x00 :: rest) <? 1) with false.
  2:{ symmetry. apply Z.ltb_ge. unfold len. rewrite !length_app. cbn [List.length]. lia. }
  rewrite readLabels_chars by (try assumption; lia).
  rewrite readLabels_labels by assumption. cbn [bind append].
  replace (Z.of_nat (String.length (l ++ dotted ls)) <? 1) with false.
  - rewrite concat_dotted. reflexivity.
  - symmetry. apply Z.ltb_ge. rewrite length_append. lia.
Qed.

(** Decoding what [writeQName] wrote for a valid name, with any bytes after
    it: the name comes back, and the unread bytes start at the zero byte that
    ends the name. *)
Lemma readQName_writeQName (n : string) (rest : list byte) :
  validName n = true ->
  readQName (writeQName n ++ rest) = Return (n, x00 :: rest).
Proof.
  intros H. rewrite writeQName_valid by assumption.
  unfold validName in H.
  pose proof (SplitDot_nonempty n) as Hne.
  pose proof (concat_SplitDot n) as Hc.
  destruct (SplitDot n) as [|l ls]; [congruence|].
  rewrite <- app_assoc. cbn [app].
  rewrite readQName_labels by assumption. rewrite Hc. reflexivity.
Qed.

Lemma stringOfByte_length (c : byte) : (1 <= String.length (stringOfByte c))%nat.
Proof. unfold stringOfByte. cbv zeta. destruct (byteZ c <? 128); cbn; lia. Qed.

(** The bytes of a label without a zero byte, once its length is in
    [labelLen]. *)
Lemma readLabels_bytes (bs : list byte) (str : string) (tail : list byte) :
  Forall (fun c => byteZ c <> 0) bs -> (List.length bs <= 255)%nat ->
  readLabels (bs ++ tail) str (Z.of_nat (List.length bs)) =
  readLabels tail (str ++ textOf bs)%string 0.
Proof.
  revert str. induction bs as [|c bs IH]; intros str Hnz Hlen.
  - cbn. rewrite append_nil_r. reflexivity.
  - inversion Hnz as [|? ? Hc Hbs]; subst.
    cbn [List.length] in Hlen |- *. cbn [app].
    rewrite readLabels_inside by (try assumption; lia).
    replace (uint8 (Z.of_nat (S (List.length bs)) - 1))
      with (Z.of_nat (List.length bs))
      by (unfold uint8; rewrite Z.mod_small; lia).
    rewrite IH by (try assumption; lia).
    cbn [textOf fold_right]. rewrite append_assoc. reflexivity.
Qed.

(** ** Panics *)

Lemma read16_panic (b : list byte) (v : panicValue) :
  read16 b = Panic v -> v = BoundsError.
Proof.
  destruct (read16_cases b) as [[E _]|[x [E _]]]; rewrite E; congruence.
Qed.

Lemma read32_panic (b : list byte) (v : panicValue) :
  read32 b = Panic v -> v = BoundsError.
Proof.
  destruct (read32_cases b) as [[E _]|[x [E _]]]; rewrite E; congruence.
Qed.

Lemma readLabels_panic_bounded (n : nat) :
  forall (rest : list byte) (str : string) (labelLen : Z) (v : panicValue),
    (List.length rest <= n)%nat ->
    readLabels rest str labelLen = Panic v -> v = BoundsError.
Proof.
  induction n as [|n IH]; intros rest str labelLen v Hlen H.
  - destruct rest; [cbn in H; congruence | cbn in Hlen; lia].
  - destruct rest as [|c rest1]; [cbn in H; congruence|].
    cbn [readLabels] in H. cbn [List.length] in Hlen.
    destruct (byteZ c =? 0); [congruence|].
    destruct (labelLen =? 0).
    + destruct rest1 as [|c1 rest2]; [congruence|].
      cbn [List.length] in Hlen. apply IH in H; [assumption | lia].
    + apply IH in H; [assumption | lia].
Qed.

Lemma readLabels_panic (rest : list byte) (str : string) (labelLen : Z) (v : panicValue) :
  readLabels rest str labelLen = Panic v -> v = BoundsError.
Proof. apply (readLabels_panic_bounded (List.length rest)). lia. Qed.

Lemma readQName_panic (b : list byte) (v : panicValue) :
  readQName b = Panic v ->
  v = BoundsError \/ v = ErrorValue ErrorInvalidQNameLength.
Proof.
  unfold readQName. destruct b as [|c b]; cbn [index nth_error bind]; [left; congruence|].
  cbn [sliceFrom List.length Nat.leb skipn bind].
  destruct (63 <? uint8 (byteZ c)); [right; congruence|].
  destruct (len b <? 1); [right; congruence|].
  destruct (readLabels b "" (uint8 (byteZ c))) as [[str rest]|w] eqn:E; cbn [bind].
  - destruct (Z.of_nat (String.length str) <? 1); [right; congruence | congruence].
  - intros H. left. apply readLabels_panic in E. congruence.
Qed.

(** Whatever [readQName] returns as unread bytes is not empty. *)
Lemma readLabels_rest (n : nat) :
  forall (rest : list byte) (str : string) (labelLen : Z) (s : string) (r : list byte),
    (List.length rest <= n)%nat ->
    readLabels rest str labelLen = Return (s, r) -> exists r', r = x00 :: r'.
Proof.
  induction n as [|n IH]; intros rest str labelLen s r Hlen H.
  - destruct rest; [cbn in H; congruence | cbn in Hlen; lia].
  - destruct rest as [|c rest1]; [cbn in H; congruence|].
    cbn [readLabels] in H. cbn [List.length] in Hlen.
    destruct (byteZ c =? 0) eqn:Ec.
    + inversion H; subst. exists rest1. f_equal.
      apply Z.eqb_eq in Ec. rewrite <- (toByte_byteZ c), Ec. reflexivity.
    + destruct (labelLen =? 0).
      * destruct rest1 as [|c1 rest2]; [congruence|].
        cbn [List.length] in Hlen. apply IH in H; [assumption | lia].
      * apply IH in H; [assumption | lia].
Qed.

Lemma readQName_rest (b : list byte) (s : string) (r : list byte) :
  readQName b = Return (s, r) -> exists r', r = x00 :: r'.
Proof.
  unfold readQName. destruct b as [|c b]; cbn [index nth_error bind]; [congruence|].
  cbn [sliceFrom List.length Nat.leb skipn bind].
  destruct (63 <? uint8 (byteZ c)); [congruence|].
  destruct (len b <? 1); [congruence|].
  destruct (readLabels b "" (uint8 (byteZ c))) as [[str rest]|w] eqn:E; cbn [bind].
  - destruct (Z.of_nat (String.length str) <? 1); [congruence|].
    intros H. inversion H; subst.
    apply (readLabels_rest (List.length b)) in E; [assumption | lia].
  - congruence.
Qed.

Lemma NewHeader_panic (b : list byte) (v : panicValue) :
  NewHeader b = Panic v -> v = BoundsError.
Proof.
  destruct (Nat.lt_ge_cases (List.length b) 12) as [H|H].
  - rewrite (NewHeader_short b H). congruence.
  - destruct (NewHeader_long b H) as [hdr E]. rewrite E. congruence.
Qed.

Lemma newResourceRecord_panic (b : list byte) (v : panicValue) :
  newResourceRecord b = Panic v -> v = BoundsError.
Proof.
  unfold newResourceRecord.
  destruct (read16 b) as [[x0 b0]|w] eqn:E0; cbn [bind];
    [|intros H; inversion H; subst; eapply read16_panic; eassumption].
  destruct (read16 b0) as [[x1 b1]|w] eqn:E1; cbn [bind];
    [|intros H; inversion H; subst; eapply read16_panic; eassumption].
  destruct (read32 b1) as [[x2 b2]|w] eqn:E2; cbn [bind];
    [|intros H; inversion H; subst; eapply read32_panic; eassumption].
  destruct (read16 b2) as [[x3 b3]|w] eqn:E3; cbn [bind];
    [|intros H; inversion H; subst; eapply read16_panic; eassumption].
  destruct (read32 b3) as [[x4 b4]|w] eqn:E4; cbn [bind];
    [|intros H; inversion H; subst; eapply read32_panic; eassumption].
  congruence.
Qed.

Lemma newQuestion_panic (b : list byte) (v : panicValue) :
  newQuestion b = Panic v ->
  v = BoundsError \/ v = ErrorValue ErrorInvalidQNameLength.
Proof.
  unfold newQuestion.
  destruct (readQName b) as [[n r]|w] eqn:E; cbn [bind];
    [|intros H; inversion H; subst; eapply readQName_panic; eassumption].
  destruct (index r 0) as [c|w] eqn:Ei; cbn [bind].
  2:{ unfold index in Ei. destruct (nth_error r 0); [congruence|].
      intros H. left. congruence. }
  destruct (sliceFrom r 12) as [r12|w] eqn:Es; cbn [bind].
  2:{ unfold sliceFrom in Es. destruct (12 <=? List.length r)%nat; [congruence|].
      intros H. left. congruence. }
  destruct (read16 r12) as [[x0 b0]|w] eqn:E0; cbn [bind];
    [|intros H; inversion H; subst; left; eapply read16_panic; eassumption].
  destruct (read16 b0) as [[x1 b1]|w] eqn:E1; cbn [bind];
    [|intros H; inversion H; subst; left; eapply read16_panic; eassumption].
  congruence.
Qed.

Lemma writeLabels_too_long (ls : list string) (b : list byte) :
  existsb tooLong ls = true -> writeLabels ls b = None.
Proof.
  revert b. induction ls as [|l ls IH]; intros b H; [discriminate|].
  cbn [existsb] in H. cbn [writeLabels]. unfold writeLabel. cbv zeta.
  unfold tooLong in H at 1. destruct (63 <? Z.of_nat (String.length l)).
  - reflexivity.
  - cbn [orb] in H. apply IH. assumption.
Qed.

(** * The claims of the specification *)

(** C1 (the code departs from the claim).  The end-to-end input is the header
    00 01 01 00 00 01 00 00 00 00 00 00, the wire form of example.com,
    qtype 1, qclass 1 and fourteen bytes of resource record.  Whatever the
    fourteen bytes are, [NewMessage] panics on it with a bounds error:
    [newQuestion] skips twelve bytes after the name, and too few are left for
    the record.  Padded with zero bytes to the 128 bytes of the resolver's
    buffer the datagram does decode, to a question type of 15360, and
    [Message.Write] of the result is the header, no question bytes at all,
    the record's fourteen bytes and the name after them: not the bytes that
    came in.  [Message.Write] itself appends the header, the question and the
    record encodings in that order. *)
Theorem e2e_roundtrip_diverges :
  (forall t0 t1 t2 t3 t4 t5 t6 t7 t8 t9 t10 t11 t12 t13 : byte,
      NewMessage (e2eHeader ++ e2eName ++ e2eFields ++
                  [t0; t1; t2; t3; t4; t5; t6; t7; t8; t9; t10; t11; t12; t13])
      = Panic BoundsError) /\
  NewMessage e2eInput = Panic BoundsError /\
  (exists m, NewMessage e2eDatagram = Return m /\
             question.qtype (Message.q m) = 15360 /\
             Message.Write m =
               e2eHeader ++ [xb8; xd8; x22] ++ repeat x00 11 ++ e2eName /\
             firstn 43 (Message.Write m) <> e2eInput) /\
  (forall m, Message.Write m =
             header.Write (Message.hdr m) ++ question.Write (Message.q m) ++
             resourceRecord.Write (Message.rr m)) /\
  (forall q, question.Write q = []).
Proof.
  split; [intros; reflexivity|].
  split; [reflexivity|].
  split.
  - eexists. split; [vm_compute; reflexivity|].
    split; [reflexivity|]. split; [vm_compute; reflexivity|].
    vm_compute. discriminate.
  - split; [|reflexivity].
    intros m. unfold Message.Write. cbn [app]. rewrite app_assoc. reflexivity.
Qed.

(** C2 (the code departs from the claim).  [header.Write] always yields
    twelve bytes, but [NewHeader] is not its inverse on the representable
    headers.  The header with id 1, qr 1, rd 1 and one question is written
    with the flags word 01 00, and read back with qr 0: the written bytes
    carry [ra] in the bit [NewHeader] reads [qr] from, and carry neither
    [qr] nor [z].  A representable header comes back unchanged exactly when
    its [qr], [ra] and [z] are all 0. *)
Theorem header_roundtrip_diverges :
  header.representable responseHeader /\
  header.Write responseHeader =
    [x00; x01; x01; x00; x00; x01; x00; x00; x00; x00; x00; x00] /\
  NewHeader (header.Write responseHeader) =
    Return (header.mk 1 0 0 0 0 1 0 0 0 1 0 0 0, []) /\
  header.mk 1 0 0 0 0 1 0 0 0 1 0 0 0 <> responseHeader /\
  (forall hdr, List.length (header.Write hdr) = 12%nat) /\
  (forall hdr,
      header.representable hdr ->
      (NewHeader (header.Write hdr) = Return (hdr, []) <->
       header.qr hdr = 0 /\ header.ra hdr = 0 /\ header.z hdr = 0)).
Proof.
  split; [unfold header.representable, responseHeader; cbn; lia|].
  split; [vm_compute; reflexivity|].
  split; [vm_compute; reflexivity|].
  split; [unfold responseHeader; congruence|].
  split; [reflexivity|].
  intros hdr Hrep. rewrite <- (app_nil_r (header.Write hdr)).
  rewrite (header_readback hdr [] Hrep).
  destruct hdr as [id qr opcode aa tc rd ra z rcode qd an ns ar].
  cbn [header.id header.qr header.opcode header.aa header.tc header.rd header.ra
       header.z header.rcode header.questions header.answers header.authorities
       header.additionals].
  split.
  - intros H. inversion H. subst. repeat split; reflexivity.
  - intros (Hqr & Hra & Hz). subst. reflexivity.
Qed.

Lemma header_roundtrip_diverges_witness :
  NewHeader (header.Write queryHeader) = Return (queryHeader, []).
Proof.
  apply (proj2 (proj2 (proj2 (proj2 (proj2 header_roundtrip_diverges)))) queryHeader).
  - unfold header.representable, queryHeader. cbn. lia.
  - repeat split; reflexivity.
Defined.

(** C3 (the code departs from the claim).  For a name whose labels have 1 to
    63 characters with code points 1 to 0x7F, [readQName] of what
    [writeQName] wrote returns the name, the labels joined with dots in the
    order met, but the unread bytes are not empty: they are the zero byte
    that ends the name, which [readQName] stops at and does not consume. *)
Theorem readQName_leaves_terminator (n : string) :
  validName n = true ->
  readQName (writeQName n) = Return (n, [x00]).
Proof.
  intros H. rewrite <- (app_nil_r (writeQName n)).
  apply readQName_writeQName. assumption.
Qed.

Lemma readQName_leaves_terminator_witness :
  readQName (writeQName "example.com") = Return ("example.com"%string, [x00]).
Proof.
  apply (readQName_leaves_terminator "example.com"). vm_compute. reflexivity.
Defined.

(** C4, against the claim as stated: the name 1 "a" 64 "b...b" 0, whose
    second length byte is 64, is decoded and returned; and on the name
    64 "a...a" 0 [readQName] does not return at all, so no error value
    reaches the caller. *)
Lemma readQName_later_length_unchecked :
  readQName laterLengthName =
    Return (("a." ++ string_of_list_ascii (repeat "b"%char 64))%string, [x00]) /\
  ~ returns (readQName firstLengthName).
Proof.
  split; [vm_compute; reflexivity|].
  intros [a H]. vm_compute in H. discriminate.
Qed.

(** C4 as amended.  [readQName] panics with [ErrorInvalidQNameLength]
    whenever the first length byte of the buffer exceeds 63, as 64 does; and
    a first length byte of exactly 63 followed by 63 label bytes, none of
    them zero, and a zero byte is decoded: the text of the label is returned
    with the unread bytes, which start at the zero byte. *)
Theorem readQName_first_length_check :
  (forall (c : byte) (buff : list byte),
      63 < byteZ c ->
      readQName (c :: buff) = Panic (ErrorValue ErrorInvalidQNameLength)) /\
  (forall (bs rest : list byte),
      List.length bs = 63%nat ->
      Forall (fun c => byteZ c <> 0) bs ->
      readQName (x3f :: bs ++ x00 :: rest) = Return (textOf bs, x00 :: rest)).
Proof.
  split.
  - intros c buff H. unfold readQName.
    cbn [index nth_error bind sliceFrom List.length Nat.leb skipn].
    replace (uint8 (byteZ c)) with (byteZ c)
      by (unfold uint8; rewrite Z.mod_small; [reflexivity | apply byteZ_range]).
    apply Z.ltb_lt in H. rewrite H. reflexivity.
  - intros bs rest Hlen Hnz. unfold readQName.
    cbn [index nth_error bind sliceFrom List.length Nat.leb skipn].
    change (uint8 (byteZ x3f)) with (Z.of_nat 63). rewrite <- Hlen.
    replace (63 <? Z.of_nat (List.length bs)) with false
      by (symmetry; apply Z.ltb_ge; lia).
    replace (len (bs ++ x00 :: rest) <? 1) with false.
    2:{ symmetry. apply Z.ltb_ge. unfold len. rewrite length_app. cbn [List.length]. lia. }
    rewrite readLabels_bytes by (try assumption; lia).
    rewrite readLabels_zero. cbn [bind append].
    replace (Z.of_nat (String.length (textOf bs)) <? 1) with false; [reflexivity|].
    symmetry. apply Z.ltb_ge.
    destruct bs as [|c bs]; [cbn in Hlen; lia|].
    cbn [textOf fold_right]. rewrite length_append.
    pose proof (stringOfByte_length c). lia.
Qed.

Lemma readQName_first_length_check_witness :
  readQName (x40 :: repeat x61 64 ++ [x00]) =
    Panic (ErrorValue ErrorInvalidQNameLength) /\
  readQName (x3f :: repeat x61 63 ++ x00 :: e2eFields) =
    Return (textOf (repeat x61 63), x00 :: e2eFields).
Proof.
  split.
  - apply (proj1 readQName_first_length_check x40). vm_compute. reflexivity.
  - apply (proj2 readQName_first_length_check (repeat x61 63) e2eFields).
    + reflexivity.
    + repeat constructor; vm_compute; discriminate.
Defined.

(** C5, against the claim as stated: on the ten bytes
    00 01 01 00 00 01 00 00 00 00 [NewHeader] does not return, neither a
    header nor an error value: it panics with the runtime's bounds error. *)
Lemma NewHeader_ten_bytes_panics :
  NewHeader tenBytes = Panic BoundsError /\ ~ returns (NewHeader tenBytes).
Proof.
  split; [reflexivity|]. intros [a H]. vm_compute in H. discriminate.
Qed.

(** C5 as amended.  On every buffer shorter than 12 bytes [NewHeader] panics
    with the runtime's bounds error, raised by the first two-byte read that
    does not find two bytes; on every buffer of at least 12 bytes it returns
    a header and the bytes after the twelfth. *)
Theorem NewHeader_panics_iff_short (b : list byte) :
  ((List.length b < 12)%nat -> NewHeader b = Panic BoundsError) /\
  ((12 <= List.length b)%nat ->
   exists hdr, NewHeader b = Return (hdr, skipn 12 b)).
Proof.
  split; [apply NewHeader_short | apply NewHeader_long].
Qed.

Lemma NewHeader_panics_iff_short_witness :
  NewHeader tenBytes = Panic BoundsError /\
  exists hdr, NewHeader e2eInput = Return (hdr, skipn 12 e2eInput).
Proof.
  split.
  - apply (proj1 (NewHeader_panics_iff_short tenBytes)). cbn. lia.
  - apply (proj2 (NewHeader_panics_iff_short e2eInput)). cbn. lia.
Defined.

(** Where [newQuestion] reads its two fields: twelve bytes past the start of
    what [readQName] left unread. *)
Lemma newQuestion_offset (b : list byte) (n : string) (r skipped rest : list byte)
      (q0 q1 c0 c1 : byte) :
  readQName b = Return (n, r) ->
  r = skipped ++ q0 :: q1 :: c0 :: c1 :: rest ->
  List.length skipped = 12%nat ->
  newQuestion b =
  Return (question.mk n (256 * byteZ q0 + byteZ q1) (256 * byteZ c0 + byteZ c1), rest).
Proof.
  intros Hn Hr Hlen. unfold newQuestion. rewrite Hn. cbn [bind].
  destruct (readQName_rest b n r Hn) as [r' Hr'].
  rewrite Hr' at 1. cbn [index nth_error bind].
  unfold sliceFrom. subst r.
  replace (12 <=? List.length (skipped ++ q0 :: q1 :: c0 :: c1 :: rest))%nat with true
    by (symmetry; apply Nat.leb_le; rewrite length_app; lia).
  cbn [bind]. rewrite <- Hlen, skipn_app, skipn_all, Nat.sub_diag. cbn [skipn app].
  do 2 step_read16. reflexivity.
Qed.

(** C6 (the code departs from the claim).  On the wire form of example.com
    followed by qtype 1 and qclass 1 the name is decoded, and [newQuestion]
    panics with a bounds error; with the fourteen record bytes after them it
    returns qtype 15360 and qclass 1117 and leaves three bytes unread.  The
    two fields are not read from the bytes that follow the name: they are
    read twelve bytes past the zero byte that ends it. *)
Theorem newQuestion_reads_past_fields :
  readQName (e2eName ++ e2eFields) =
    Return ("example.com"%string, x00 :: e2eFields) /\
  newQuestion (e2eName ++ e2eFields) = Panic BoundsError /\
  newQuestion (e2eName ++ e2eFields ++ e2eTail) =
    Return (question.mk "example.com" 15360 1117, [xb8; xd8; x22]).
Proof.
  split; [vm_compute; reflexivity|].
  split; vm_compute; reflexivity.
Qed.

(** C7.  [newResourceRecord] reads no name: on every buffer of at least
    fourteen bytes it returns the record whose rtype, class, ttl, length and
    rdata are the big-endian values of bytes 0-1, 2-3, 4-7, 8-9 and 10-13,
    whose name is the empty string, and the bytes after the fourteenth.
    [NewMessage], when it returns a message, has set the name of its record
    to the name of its question. *)
Theorem newResourceRecord_fixed_fields :
  (forall (t0 t1 t2 t3 t4 t5 t6 t7 t8 t9 t10 t11 t12 t13 : byte) (rest : list byte),
      newResourceRecord
        (t0 :: t1 :: t2 :: t3 :: t4 :: t5 :: t6 :: t7 :: t8 :: t9 :: t10 :: t11
            :: t12 :: t13 :: rest) =
      Return (resourceRecord.mk EmptyString
                (256 * byteZ t0 + byteZ t1)
                (256 * byteZ t2 + byteZ t3)
                (2 ^ 24 * byteZ t4 + 2 ^ 16 * byteZ t5 + 2 ^ 8 * byteZ t6 + byteZ t7)
                (256 * byteZ t8 + byteZ t9)
                (2 ^ 24 * byteZ t10 + 2 ^ 16 * byteZ t11 + 2 ^ 8 * byteZ t12 + byteZ t13),
              rest)) /\
  (forall (b : list byte) (m : Message.t),
      NewMessage b = Return m ->
      resourceRecord.name (Message.rr m) = question.qname (Message.q m)).
Proof.
  split.
  - intros. unfold newResourceRecord.
    step_read16. step_read16. step_read32. step_read16. step_read32. reflexivity.
  - intros b m. unfold NewMessage.
    destruct (NewHeader b) as [[hdr b1]|v]; cbn [bind]; [|congruence].
    destruct (newQuestion b1) as [[q b2]|v]; cbn [bind]; [|congruence].
    destruct (newResourceRecord b2) as [[rr b3]|v]; cbn [bind]; [|congruence].
    intros H. inversion H. reflexivity.
Qed.

Lemma newResourceRecord_fixed_fields_witness :
  exists m, NewMessage e2eDatagram = Return m /\
            resourceRecord.name (Message.rr m) = question.qname (Message.q m) /\
            question.qname (Message.q m) = "example.com"%string.
Proof.
  eexists. split; [vm_compute; reflexivity|].
  split; [|reflexivity].
  apply (proj2 newResourceRecord_fixed_fields e2eDatagram). vm_compute. reflexivity.
Defined.

(** C8 (the code departs from the claim).  [resourceRecord.Write] emits the
    fourteen bytes of rtype, class, ttl, length and rdata first and the
    encoded name after them.  The record example.com, type 1, class 1,
    ttl 60, length 4, data 93.184.216.34 is written as the fourteen bytes
    followed by the thirteen bytes of the name. *)
Theorem resourceRecord_Write_name_last :
  (forall rr,
      resourceRecord.Write rr =
      firstn 14 (resourceRecord.Write rr) ++ writeQName (resourceRecord.name rr)) /\
  resourceRecord.Write sampleRecord = e2eTail ++ e2eName /\
  writeQName (resourceRecord.name sampleRecord) = e2eName /\
  resourceRecord.Write sampleRecord <> e2eName ++ e2eTail.
Proof.
  split; [intros rr; reflexivity|].
  split; [vm_compute; reflexivity|].
  split; [vm_compute; reflexivity|].
  vm_compute. discriminate.
Qed.

(** C9, against the claim as stated: a datagram whose question name starts
    with the length byte 64 makes [NewMessage] panic with
    [ErrorInvalidQNameLength], so nothing, and no error value, is returned to
    the caller; and a message whose names have a label of 64 characters is
    written by [Message.Write] without any failure, as the header followed
    by the record's fourteen bytes, the names left out. *)
Lemma NewMessage_panics_on_bad_length :
  NewMessage badLengthInput = Panic (ErrorValue ErrorInvalidQNameLength) /\
  ~ returns (NewMessage badLengthInput) /\
  Message.Write longLabelMessage = e2eHeader ++ e2eTail.
Proof.
  split; [vm_compute; reflexivity|].
  split; [|vm_compute; reflexivity].
  intros [a H]. vm_compute in H. discriminate.
Qed.

(** C9 as amended.  No decode or encode function returns an error value;
    a failure during decode is a panic, raised at the read that fails, and
    it reaches the caller of [NewMessage] unchanged.  [NewMessage] returns a
    message exactly when [NewHeader], [newQuestion] and [newResourceRecord]
    all returned, each on the bytes the one before left unread, and the
    message is made of their three results; it panics with [v] exactly when
    the first of the three that panics does so with [v]; and the only panics
    are the runtime's bounds error and [ErrorInvalidQNameLength].  On the
    encode side [writeQName] returns nil for a name with a label longer than
    63 characters. *)
Theorem NewMessage_panics_propagate (b : list byte) :
  (forall m,
      NewMessage b = Return m <->
      exists hdr b1 q b2 rr b3,
        NewHeader b = Return (hdr, b1) /\
        newQuestion b1 = Return (q, b2) /\
        newResourceRecord b2 = Return (rr, b3) /\
        m = Message.mk hdr q (resourceRecord.setName rr (question.qname q))) /\
  (forall v,
      NewMessage b = Panic v <->
      NewHeader b = Panic v \/
      exists hdr b1,
        NewHeader b = Return (hdr, b1) /\
        (newQuestion b1 = Panic v \/
         exists q b2,
           newQuestion b1 = Return (q, b2) /\ newResourceRecord b2 = Panic v)) /\
  (forall v,
      NewMessage b = Panic v ->
      v = BoundsError \/ v = ErrorValue ErrorInvalidQNameLength) /\
  (forall qname,
      existsb tooLong (SplitDot qname) = true -> writeQName qname = []).
Proof.
  unfold NewMessage.
  destruct (NewHeader b) as [[hdr b1]|w] eqn:Eh; cbn [bind].
  2:{ repeat split.
      - congruence.
      - intros (? & ? & ? & ? & ? & ? & H & _). congruence.
      - intros H. left. inversion H. reflexivity.
      - intros [H|(? & ? & H & _)]; congruence.
      - intros v H. left. inversion H; subst. eapply NewHeader_panic; eassumption.
      - intros qname H. unfold writeQName. cbv zeta.
        rewrite writeLabels_too_long by assumption. reflexivity. }
  destruct (newQuestion b1) as [[q b2]|w] eqn:Eq; cbn [bind].
  2:{ repeat split.
      - congruence.
      - intros (? & ? & ? & ? & ? & ? & H1 & H2 & _).
        inversion H1; subst. congruence.
      - intros H. right. exists hdr, b1. split; [reflexivity|]. left.
        inversion H; subst. assumption.
      - intros [H|(? & ? & H1 & [H2|(? & ? & H2 & _)])]; try congruence;
          inversion H1; subst; congruence.
      - intros v H. inversion H; subst. eapply newQuestion_panic; eassumption.
      - intros qname H. unfold writeQName. cbv zeta.
        rewrite writeLabels_too_long by assumption. reflexivity. }
  destruct (newResourceRecord b2) as [[rr b3]|w] eqn:Er; cbn [bind].
  - repeat split.
    + intros H. inversion H; subst. exists hdr, b1, q, b2, rr, b3.
      repeat split; first [assumption | reflexivity].
    + intros (? & ? & ? & ? & ? & ? & H1 & H2 & H3 & H4).
      inversion H1; subst. rewrite Eq in H2. inversion H2; subst.
      rewrite Er in H3. inversion H3; subst. reflexivity.
    + congruence.
    + intros [H|(? & ? & H1 & [H2|(? & ? & H2 & H3)])]; try congruence;
        inversion H1; subst; try congruence;
        rewrite Eq in H2; inversion H2; subst; congruence.
    + congruence.
    + intros qname H. unfold writeQName. cbv zeta.
      rewrite writeLabels_too_long by assumption. reflexivity.
  - repeat split.
    + congruence.
    + intros (? & ? & ? & ? & ? & ? & H1 & H2 & H3 & _).
      inversion H1; subst. rewrite Eq in H2. inversion H2; subst. congruence.
    + intros H. right. exists hdr, b1. split; [reflexivity|]. right.
      exists q, b2. split; [assumption|]. inversion H; subst. assumption.
    + intros [H|(? & ? & H1 & [H2|(? & ? & H2 & H3)])]; try congruence;
        inversion H1; subst; try congruence;
        rewrite Eq in H2; inversion H2; subst; congruence.
    + intros v H. left. inversion H; subst.
      eapply newResourceRecord_panic; eassumption.
    + intros qname H. unfold writeQName. cbv zeta.
      rewrite writeLabels_too_long by assumption. reflexivity.
Qed.

Lemma NewMessage_panics_propagate_witness :
  NewMessage badLengthInput = Panic (ErrorValue ErrorInvalidQNameLength) /\
  writeQName longLabel = [].
Proof.
  pose proof (NewMessage_panics_propagate badLengthInput) as (_ & Hp & _ & Hw).
  split.
  - apply Hp. right. exists (header.mk 1 0 0 0 0 1 0 0 0 1 0 0 0).
    exists (firstLengthName ++ e2eFields ++ e2eTail).
    split; [vm_compute; reflexivity|]. left. vm_compute. reflexivity.
  - apply Hw. vm_compute. reflexivity.
Defined.

(** C10.  Two headers that agree on every field but [qr] and [z] are written
    by [header.Write] as the same twelve bytes. *)
Theorem header_Write_ignores_qr_z (h1 h2 : header.t) :
  sameButQrZ h1 h2 ->
  header.Write h1 = header.Write h2 /\ List.length (header.Write h1) = 12%nat.
Proof.
  unfold sameButQrZ.
  intros (Hid & Hop & Haa & Htc & Hrd & Hra & Hrc & Hqd & Han & Hns & Har).
  split; [|reflexivity].
  unfold header.Write.
  rewrite Hid, Hop, Haa, Htc, Hrd, Hra, Hrc, Hqd, Han, Hns, Har. reflexivity.
Qed.

Lemma header_Write_ignores_qr_z_witness :
  header.qr responseHeader <> header.qr queryHeaderZ /\
  header.z responseHeader <> header.z queryHeaderZ /\
  header.Write responseHeader = header.Write queryHeaderZ /\
  List.length (header.Write responseHeader) = 12%nat.
Proof.
  split; [cbn; lia|]. split; [cbn; lia|].
  apply (header_Write_ignores_qr_z responseHeader queryHeaderZ).
  unfold sameButQrZ. cbn. repeat split; reflexivity.
Defined.

(** * Further properties of the codec *)

(** ** Header *)

Lemma byteZ_below (b : byte) : In (byteZ b) (below 256).
Proof. apply In_below. pose proof (byteZ_range b). lia. Qed.

Lemma flagBits_all :
  forallb (fun x2 => forallb (fun x3 => flagBitsCheck x2 x3) (below 256)) (below 256)
  = true.
Proof. vm_compute. reflexivity. Qed.

Lemma flagBits (b2 b3 : byte) : flagBitsCheck (byteZ b2) (byteZ b3) = true.
Proof.
  pose proof (proj1 (forallb_forall _ _) flagBits_all _ (byteZ_below b2)) as H.
  exact (proj1 (forallb_forall _ _) H _ (byteZ_below b3)).
Qed.

Lemma flagsByte_all :
  forallb (fun x2 => forallb (fun x3 => flagsByteCheck x2 x3) (below 256)) (below 256)
  = true.
Proof. vm_compute. reflexivity. Qed.

Lemma flagsByte (b2 b3 : byte) : flagsByteCheck (byteZ b2) (byteZ b3) = true.
Proof.
  pose proof (proj1 (forallb_forall _ _) flagsByte_all _ (byteZ_below b2)) as H.
  exact (proj1 (forallb_forall _ _) H _ (byteZ_below b3)).
Qed.

(** What [NewHeader] makes of twelve bytes, in arithmetic. *)
Lemma NewHeader_bytes (b0 b1 b2 b3 b4 b5 b6 b7 b8 b9 b10 b11 : byte) (rest : list byte) :
  NewHeader (b0 :: b1 :: b2 :: b3 :: b4 :: b5 :: b6 :: b7 :: b8 :: b9 :: b10
                :: b11 :: rest) =
  Return (header.mk (256 * byteZ b0 + byteZ b1)
            (byteZ b2 / 128) ((byteZ b2 / 8) mod 16) ((byteZ b2 / 4) mod 2)
            ((byteZ b2 / 2) mod 2) (byteZ b2 mod 2)
            (byteZ b3 / 128) ((byteZ b3 / 64) mod 2) (byteZ b3 mod 64)
            (256 * byteZ b4 + byteZ b5) (256 * byteZ b6 + byteZ b7)
            (256 * byteZ b8 + byteZ b9) (256 * byteZ b10 + byteZ b11), rest).
Proof.
  unfold NewHeader. repeat step_read16.
  pose proof (flagBits b2 b3) as H. unfold flagBitsCheck in H.
  cbv zeta in H. rewrite !andb_true_iff, !Z.eqb_eq in H.
  destruct H as (((((((E1 & E2) & E3) & E4) & E5) & E6) & E7) & E8).
  rewrite E1, E2, E3, E4, E5, E6, E7, E8. reflexivity.
Qed.

(** X1.  The bit layout [NewHeader] decodes.  On every buffer of at least
    twelve bytes it returns the bytes after the twelfth and the header whose
    id and four counts are the big-endian values of bytes 0-1, 4-5, 6-7, 8-9
    and 10-11, whose qr, opcode, aa, tc and rd are bit 7, bits 6-3, bit 2,
    bit 1 and bit 0 of byte 2, whose ra and z are bits 7 and 6 of byte 3, and
    whose rcode is the low six bits of byte 3. *)
Theorem NewHeader_bit_layout
        (b0 b1 b2 b3 b4 b5 b6 b7 b8 b9 b10 b11 : byte) (rest : list byte) :
  NewHeader (b0 :: b1 :: b2 :: b3 :: b4 :: b5 :: b6 :: b7 :: b8 :: b9 :: b10
                :: b11 :: rest) =
  Return (header.mk (256 * byteZ b0 + byteZ b1)
            (byteZ b2 / 128) ((byteZ b2 / 8) mod 16) ((byteZ b2 / 4) mod 2)
            ((byteZ b2 / 2) mod 2) (byteZ b2 mod 2)
            (byteZ b3 / 128) ((byteZ b3 / 64) mod 2) (byteZ b3 mod 64)
            (256 * byteZ b4 + byteZ b5) (256 * byteZ b6 + byteZ b7)
            (256 * byteZ b8 + byteZ b9) (256 * byteZ b10 + byteZ b11), rest).
Proof. apply NewHeader_bytes. Qed.

(** X2.  Every header [NewHeader] returns has its fields within these
    bounds: the flags are 0 or 1, the opcode is below 16, the id and the
    counts are below 65536, and the rcode is below 64, not below 16. *)
Theorem NewHeader_ranges (b : list byte) (hdr : header.t) (rest : list byte) :
  NewHeader b = Return (hdr, rest) -> decodedRanges hdr /\ rest = skipn 12 b.
Proof.
  intros H.
  destruct (Nat.lt_ge_cases (List.length b) 12) as [Hs|Hl].
  - rewrite (NewHeader_short b Hs) in H. discriminate.
  - do 12 (destruct b as [|? b]; [cbn [List.length] in Hl; lia|]).
    rewrite NewHeader_bytes in H.
    match type of H with Return (?h, _) = _ => remember h as h0 eqn:E0 end.
    injection H as Hh Hr. subst hdr rest h0. clear Hl.
    split; [|reflexivity].
    cbv [decodedRanges header.id header.qr header.opcode header.aa
      header.tc header.rd header.ra header.z header.rcode header.questions
      header.answers header.authorities header.additionals].
    repeat match goal with x : byte |- _ =>
      pose proof (byteZ_range x); generalize dependent (byteZ x); clear x; intros
    end.
    repeat split; Z.div_mod_to_equations; lia.
Qed.

(** X3.  Written by [header.Write] and read back by [NewHeader], with any
    bytes after it, a representable header keeps its id, opcode, aa, tc, rd,
    rcode and counts; its qr comes back as what its ra was, and its ra and z
    come back as 0.  The bytes after the header are left unread. *)
Theorem header_Write_then_NewHeader (hdr : header.t) (rest : list byte) :
  header.representable hdr ->
  NewHeader (header.Write hdr ++ rest) =
  Return (header.mk (header.id hdr) (header.ra hdr) (header.opcode hdr)
            (header.aa hdr) (header.tc hdr) (header.rd hdr) 0 0
            (header.rcode hdr) (header.questions hdr) (header.answers hdr)
            (header.authorities hdr) (header.additionals hdr), rest).
Proof. apply header_readback. Qed.

Lemma header_Write_then_NewHeader_witness :
  NewHeader (header.Write (header.mk 7 1 2 1 0 1 1 1 3 1 2 3 4) ++ e2eName) =
  Return (header.mk 7 1 2 1 0 1 0 0 3 1 2 3 4, e2eName).
Proof.
  apply (header_Write_then_NewHeader (header.mk 7 1 2 1 0 1 1 1 3 1 2 3 4) e2eName).
  unfold header.representable. cbn. lia.
Defined.

Lemma shiftr8_bytes (a b : Z) :
  0 <= a < 256 -> 0 <= b < 256 -> Z.shiftr (256 * a + b) 8 = a.
Proof.
  intros Ha Hb. rewrite Z.shiftr_div_pow2 by lia.
  change (2 ^ 8) with 256. Z.div_mod_to_equations. lia.
Qed.

Lemma land_ff_bytes (a b : Z) :
  0 <= a < 256 -> 0 <= b < 256 -> Z.land (256 * a + b) 0xff = b.
Proof.
  intros Ha Hb. change 0xff with (Z.ones 8). rewrite Z.land_ones by lia.
  change (2 ^ 8) with 256. Z.div_mod_to_equations. lia.
Qed.

Lemma hi_byte (a b : byte) :
  toByte (uint8 (Z.shiftr (256 * byteZ a + byteZ b) 8)) = a.
Proof.
  rewrite shiftr8_bytes by apply byteZ_range.
  rewrite toByte_uint8. apply toByte_byteZ.
Qed.

Lemma lo_byte (a b : byte) :
  toByte (uint8 (Z.land (256 * byteZ a + byteZ b) 0xff)) = b.
Proof.
  rewrite land_ff_bytes by apply byteZ_range.
  rewrite toByte_uint8. apply toByte_byteZ.
Qed.

Lemma toByte_inj_small (x : Z) (b : byte) :
  0 <= x < 256 -> (toByte x = b <-> x = byteZ b).
Proof.
  intros Hx. split; intros H.
  - rewrite <- H, byteZ_toByte. unfold uint8. rewrite Z.mod_small; lia.
  - subst x. apply toByte_byteZ.
Qed.

(** X4.  Decoding a header and writing it again.  For every twelve bytes,
    [header.Write] of what [NewHeader] decoded gives back bytes 0-1 and 4-11
    unchanged; byte 2 keeps its low seven bits and gets the top bit of byte 3
    as its top bit; byte 3 keeps only its low six bits.  So the twelve bytes
    are reproduced exactly when the decoded qr, ra and z are all 0. *)
Theorem NewHeader_then_header_Write
        (b0 b1 b2 b3 b4 b5 b6 b7 b8 b9 b10 b11 : byte) (rest r : list byte)
        (hdr : header.t) :
  NewHeader (b0 :: b1 :: b2 :: b3 :: b4 :: b5 :: b6 :: b7 :: b8 :: b9 :: b10
                :: b11 :: rest) = Return (hdr, r) ->
  header.Write hdr =
    [b0; b1; toByte (byteZ b2 mod 128 + 128 * (byteZ b3 / 128));
     toByte (byteZ b3 mod 64); b4; b5; b6; b7; b8; b9; b10; b11] /\
  (header.Write hdr = [b0; b1; b2; b3; b4; b5; b6; b7; b8; b9; b10; b11] <->
   header.qr hdr = 0 /\ header.ra hdr = 0 /\ header.z hdr = 0).
Proof.
  intros H. rewrite NewHeader_bytes in H.
  match type of H with Return (?h, _) = _ => remember h as h0 eqn:E0 end.
  injection H as Hh Hr. subst hdr r h0.
  assert (E : header.Write
                (header.mk (256 * byteZ b0 + byteZ b1)
                   (byteZ b2 / 128) ((byteZ b2 / 8) mod 16) ((byteZ b2 / 4) mod 2)
                   ((byteZ b2 / 2) mod 2) (byteZ b2 mod 2)
                   (byteZ b3 / 128) ((byteZ b3 / 64) mod 2) (byteZ b3 mod 64)
                   (256 * byteZ b4 + byteZ b5) (256 * byteZ b6 + byteZ b7)
                   (256 * byteZ b8 + byteZ b9) (256 * byteZ b10 + byteZ b11)) =
              [b0; b1; toByte (byteZ b2 mod 128 + 128 * (byteZ b3 / 128));
               toByte (byteZ b3 mod 64); b4; b5; b6; b7; b8; b9; b10; b11]).
  { cbv [header.Write header.id header.qr header.opcode header.aa
      header.tc header.rd header.ra header.z header.rcode header.questions
      header.answers header.authorities header.additionals].
    rewrite !hi_byte, !lo_byte.
    pose proof (flagsByte b2 b3) as F. unfold flagsByteCheck in F.
    apply Z.eqb_eq in F.
    rewrite <- (toByte_uint8 (Z.lor _ _)), F. reflexivity. }
  split; [exact E|]. rewrite E.
  cbv [header.qr header.ra header.z].
  pose proof (byteZ_range b2) as R2. pose proof (byteZ_range b3) as R3.
  split.
  - intros L.
    pose proof (f_equal (fun l => nth 2 l x00) L) as L2.
    pose proof (f_equal (fun l => nth 3 l x00) L) as L3.
    cbv beta in L2, L3. cbn [nth] in L2, L3. clear L.
    apply toByte_inj_small in L2; [|Z.div_mod_to_equations; lia].
    apply toByte_inj_small in L3; [|Z.div_mod_to_equations; lia].
    revert L2 L3. generalize dependent (byteZ b2). generalize dependent (byteZ b3).
    intros x3 R3 x2 R2 L2 L3. repeat split; Z.div_mod_to_equations; lia.
  - intros (Q & A & Zf).
    assert (E2 : byteZ b2 mod 128 + 128 * (byteZ b3 / 128) = byteZ b2).
    { revert Q A Zf. generalize dependent (byteZ b2). generalize dependent (byteZ b3).
      intros x3 R3 x2 R2 Q A Zf. Z.div_mod_to_equations. lia. }
    assert (E3 : byteZ b3 mod 64 = byteZ b3).
    { revert Q A Zf. generalize dependent (byteZ b2). generalize dependent (byteZ b3).
      intros x3 R3 x2 R2 Q A Zf. Z.div_mod_to_equations. lia. }
    rewrite E2, E3, !toByte_byteZ. reflexivity.
Qed.

Lemma NewHeader_then_header_Write_witness :
  header.Write queryHeader = e2eHeader /\
  header.Write (header.mk 0x1234 1 15 1 1 1 1 1 63 1 2 3 4) =
    [x12; x34; xff; x3f; x00; x01; x00; x02; x00; x03; x00; x04].
Proof.
  split.
  - apply (proj2 (NewHeader_then_header_Write x00 x01 x01 x00 x00 x01 x00 x00 x00
                    x00 x00 x00 [] [] queryHeader ltac:(vm_compute; reflexivity))).
    repeat split; reflexivity.
  - apply (proj1 (NewHeader_then_header_Write x12 x34 xff xff x00 x01 x00 x02 x00
                    x03 x00 x04 [] [] (header.mk 0x1234 1 15 1 1 1 1 1 63 1 2 3 4)
                    ltac:(vm_compute; reflexivity))).
Defined.

Lemma NewHeader_ranges_witness :
  decodedRanges (header.mk 0x1234 1 15 1 1 1 1 1 63 1 2 3 4) /\
  ([] : list byte) = skipn 12 allFlagsHeader.
Proof.
  apply (NewHeader_ranges allFlagsHeader). vm_compute. reflexivity.
Defined.

(** ** Names *)

Lemma length_list_byte_of_string (s : string) :
  List.length (list_byte_of_string s) = String.length s.
Proof.
  unfold list_byte_of_string. rewrite length_map.
  induction s as [|c s IH]; cbn; [reflexivity | rewrite IH; reflexivity].
Qed.

Lemma length_labelsWire (ls : list string) :
  List.length (labelsWire ls) = String.length (dotted ls).
Proof.
  induction ls as [|l ls IH]; [reflexivity|].
  unfold labelsWire. cbn [map List.concat dotted fold_right].
  fold (labelsWire ls). fold (dotted ls).
  rewrite length_app. unfold labelWire. cbn [List.length append String.length].
  rewrite length_list_byte_of_string, length_append, IH. reflexivity.
Qed.

(** X5.  The size of an encoded name.  For a name whose labels have 1 to 63
    characters with code points 1 to 0x7F, [writeQName] returns two bytes
    more than the name has characters, and the last of them is zero. *)
Theorem writeQName_length (n : string) :
  validName n = true ->
  List.length (writeQName n) = (String.length n + 2)%nat /\
  exists b, writeQName n = b ++ [x00].
Proof.
  intros H. rewrite (writeQName_valid n H). split; [|eexists; reflexivity].
  rewrite length_app, length_labelsWire. cbn [List.length].
  pose proof (SplitDot_nonempty n) as Hne. pose proof (concat_SplitDot n) as Hc.
  destruct (SplitDot n) as [|l ls]; [congruence|].
  rewrite concat_dotted in Hc. rewrite <- Hc.
  cbn [dotted fold_right]. fold (dotted ls).
  cbn [append String.length]. rewrite !length_append. lia.
Qed.

Lemma writeQName_length_witness :
  List.length (writeQName "example.com") = 13%nat /\
  exists b, writeQName "example.com" = b ++ [x00].
Proof.
  apply (writeQName_length "example.com"). vm_compute. reflexivity.
Defined.

Lemma writeLabels_None (ls : list string) (b : list byte) :
  writeLabels ls b = None -> existsb tooLong ls = true.
Proof.
  revert b. induction ls as [|l ls IH]; intros b H; [discriminate|].
  cbn [writeLabels] in H. cbn [existsb]. unfold writeLabel in H. cbv zeta in H.
  unfold tooLong at 1. destruct (63 <? Z.of_nat (String.length l)); [reflexivity|].
  cbn [orb]. eapply IH. eassumption.
Qed.

(** X6.  [writeQName] returns nil exactly for the names that have a label
    longer than 63 characters; for every other name, whatever its
    characters, the result is not empty and ends in a zero byte. *)
Theorem writeQName_nil_iff (n : string) :
  (writeQName n = [] <-> existsb tooLong (SplitDot n) = true) /\
  (existsb tooLong (SplitDot n) = false ->
   exists b, writeQName n = b ++ [x00] /\ b <> []).
Proof.
  unfold writeQName. cbv zeta.
  destruct (writeLabels (SplitDot n) []) as [b|] eqn:E.
  - assert (Hf : existsb tooLong (SplitDot n) = false).
    { destruct (existsb tooLong (SplitDot n)) eqn:Ex; [|reflexivity].
      rewrite (writeLabels_too_long _ _ Ex) in E. discriminate. }
    split.
    + rewrite Hf. split; [|discriminate].
      intros H. destruct b; discriminate.
    + intros _. exists b. split; [reflexivity|].
      pose proof (SplitDot_nonempty n) as Hne.
      destruct (SplitDot n) as [|l ls]; [congruence|].
      cbn [writeLabels] in E. unfold writeLabel in E. cbv zeta in E.
      destruct (63 <? Z.of_nat (String.length l)); [discriminate|].
      intros ->. clear Hf Hne.
      assert (G : forall ks (acc : list byte), writeLabels ks acc = Some [] -> acc = []).
      { induction ks as [|k ks IH]; intros acc H; cbn [writeLabels] in H.
        - congruence.
        - unfold writeLabel in H. cbv zeta in H.
          destruct (63 <? Z.of_nat (String.length k)); [discriminate|].
          apply IH in H. destruct acc; discriminate. }
      apply G in E. cbn [app] in E. discriminate.
  - pose proof (writeLabels_None _ _ E) as Ex. rewrite Ex.
    split; [split; reflexivity | discriminate].
Qed.

Lemma writeQName_nil_iff_witness :
  writeQName longLabel = [] /\
  exists b, writeQName "a..b" = b ++ [x00] /\ b <> [].
Proof.
  split.
  - apply (proj1 (writeQName_nil_iff longLabel)). vm_compute. reflexivity.
  - apply (proj2 (writeQName_nil_iff "a..b")). vm_compute. reflexivity.
Defined.

Lemma readLabels_suffix (n : nat) :
  forall (rest : list byte) (str : string) (labelLen : Z) (s : string) (r : list byte),
    (List.length rest <= n)%nat ->
    readLabels rest str labelLen = Return (s, r) ->
    exists pre, rest = pre ++ r /\ (pre = [] -> s = str).
Proof.
  induction n as [|n IH]; intros rest str labelLen s r Hlen H.
  - destruct rest; [cbn in H; congruence | cbn in Hlen; lia].
  - destruct rest as [|c rest1]; [cbn in H; congruence|].
    cbn [readLabels] in H. cbn [List.length] in Hlen.
    destruct (byteZ c =? 0).
    + injection H as <- <-. exists []. split; reflexivity.
    + destruct (labelLen =? 0).
      * destruct rest1 as [|c1 rest2]; [congruence|].
        cbn [List.length] in Hlen. apply IH in H; [|lia].
        destruct H as (pre & -> & _). exists (c :: c1 :: pre).
        split; [reflexivity | discriminate].
      * apply IH in H; [|lia].
        destruct H as (pre & -> & _). exists (c :: pre).
        split; [reflexivity | discriminate].
Qed.

Lemma readQName_inv (b : list byte) (s : string) (r : list byte) :
  readQName b = Return (s, r) ->
  s <> EmptyString /\
  exists pre r', b = pre ++ r /\ r = x00 :: r' /\ (2 <= List.length pre)%nat.
Proof.
  intros H. destruct (readQName_rest b s r H) as [r' Hr].
  revert H. unfold readQName.
  destruct b as [|c b]; cbn [index nth_error bind]; [congruence|].
  cbn [sliceFrom List.length Nat.leb skipn bind].
  destruct (63 <? uint8 (byteZ c)); [congruence|].
  destruct (len b <? 1); [congruence|].
  destruct (readLabels b "" (uint8 (byteZ c))) as [[str rest]|w] eqn:E; cbn [bind];
    [|congruence].
  destruct (Z.of_nat (String.length str) <? 1) eqn:El; [congruence|].
  intros H. injection H as <- <-.
  apply Z.ltb_ge in El.
  assert (Hs : str <> EmptyString) by (intros ->; cbn in El; lia).
  split; [assumption|].
  apply (readLabels_suffix (List.length b)) in E; [|lia].
  destruct E as (pre & -> & Hpre).
  exists (c :: pre), r'. repeat split; [assumption|].
  destruct pre as [|p pre]; [|cbn; lia].
  exfalso. apply Hs. apply Hpre. reflexivity.
Qed.

(** X7.  What [readQName] hands back when it returns: a name that is not
    empty, and unread bytes that are a tail of the buffer, start with a zero
    byte and come after at least two bytes read. *)
Theorem readQName_returns (b : list byte) (s : string) (r : list byte) :
  readQName b = Return (s, r) ->
  s <> EmptyString /\
  exists pre r', b = pre ++ r /\ r = x00 :: r' /\ (2 <= List.length pre)%nat.
Proof. apply readQName_inv. Qed.

Lemma readQName_returns_witness :
  "example.com"%string <> EmptyString /\
  exists pre r', e2eName ++ e2eFields = pre ++ x00 :: e2eFields /\
                 x00 :: e2eFields = x00 :: r' /\ (2 <= List.length pre)%nat.
Proof.
  apply (readQName_returns (e2eName ++ e2eFields)). vm_compute. reflexivity.
Defined.

Lemma readLabels_unterminated (n : nat) :
  forall (rest : list byte) (str : string) (labelLen : Z),
    (List.length rest <= n)%nat ->
    Forall (fun c => byteZ c <> 0) rest ->
    readLabels rest str labelLen = Panic BoundsError.
Proof.
  induction n as [|n IH]; intros rest str labelLen Hlen Hnz.
  - destruct rest; [reflexivity | cbn in Hlen; lia].
  - destruct rest as [|c rest1]; [reflexivity|].
    inversion Hnz as [|? ? Hc Hnz1]; subst.
    cbn [readLabels]. cbn [List.length] in Hlen.
    apply Z.eqb_neq in Hc. rewrite Hc.
    destruct (labelLen =? 0).
    + destruct rest1 as [|c1 rest2]; [reflexivity|].
      inversion Hnz1; subst. cbn [List.length] in Hlen. apply IH; [lia | assumption].
    + apply IH; [lia | assumption].
Qed.

(** X8.  A name that is not terminated.  When the first byte of the buffer
    is at most 63, at least one byte follows it and none of the bytes that
    follow is zero, [readQName] runs off the end of the buffer: it panics
    with the runtime's bounds error. *)
Theorem readQName_unterminated (c : byte) (bs : list byte) :
  byteZ c <= 63 -> bs <> [] -> Forall (fun x => byteZ x <> 0) bs ->
  readQName (c :: bs) = Panic BoundsError.
Proof.
  intros Hc Hne Hnz. unfold readQName.
  cbn [index nth_error bind sliceFrom List.length Nat.leb skipn].
  replace (uint8 (byteZ c)) with (byteZ c)
    by (unfold uint8; rewrite Z.mod_small; [reflexivity | apply byteZ_range]).
  replace (63 <? byteZ c) with false by (symmetry; apply Z.ltb_ge; lia).
  replace (len bs <? 1) with false.
  2:{ symmetry. apply Z.ltb_ge. unfold len. destruct bs; [congruence | cbn; lia]. }
  rewrite (readLabels_unterminated (List.length bs)) by (try assumption; lia).
  reflexivity.
Qed.

Lemma readQName_unterminated_witness :
  readQName [x07; x65; x78; x61; x6d; x70; x6c; x65; x03; x63; x6f; x6d] =
  Panic BoundsError.
Proof.
  apply (readQName_unterminated x07 [x65; x78; x61; x6d; x70; x6c; x65; x03; x63; x6f; x6d]).
  - vm_compute. discriminate.
  - discriminate.
  - repeat constructor; vm_compute; discriminate.
Defined.

Lemma readLabels_early_zero (bs : list byte) :
  forall (str : string) (labelLen : Z) (rest : list byte),
    Forall (fun c => byteZ c <> 0) bs ->
    Z.of_nat (List.length bs) <= labelLen < 256 ->
    readLabels (bs ++ x00 :: rest) str labelLen =
    Return ((str ++ textOf bs)%string, x00 :: rest).
Proof.
  induction bs as [|c bs IH]; intros str labelLen rest Hnz Hk.
  - cbn [app textOf fold_right]. rewrite append_nil_r. apply readLabels_zero.
  - inversion Hnz as [|? ? Hc Hbs]; subst. cbn [List.length] in Hk. cbn [app].
    rewrite readLabels_inside by (try assumption; lia).
    replace (uint8 (labelLen - 1)) with (labelLen - 1)
      by (unfold uint8; rewrite Z.mod_small; lia).
    rewrite IH by (try assumption; lia).
    cbn [textOf fold_right]. rewrite append_assoc. reflexivity.
Qed.

Lemma readQName_early_zero (k : Z) (bs rest : list byte) :
  (1 <= List.length bs)%nat -> Z.of_nat (List.length bs) <= k <= 63 ->
  Forall (fun c => byteZ c <> 0) bs ->
  readQName (toByte k :: bs ++ x00 :: rest) = Return (textOf bs, x00 :: rest).
Proof.
  intros H1 Hk Hnz. unfold readQName.
  cbn [index nth_error bind sliceFrom List.length Nat.leb skipn].
  rewrite byteZ_toByte.
  replace (uint8 (uint8 k)) with k
    by (unfold uint8; rewrite Z.mod_mod by lia; rewrite Z.mod_small; lia).
  replace (63 <? k) with false by (symmetry; apply Z.ltb_ge; lia).
  replace (len (bs ++ x00 :: rest) <? 1) with false.
  2:{ symmetry. apply Z.ltb_ge. unfold len. rewrite length_app. cbn [List.length]. lia. }
  rewrite readLabels_early_zero by (try assumption; lia).
  cbn [bind append].
  replace (Z.of_nat (String.length (textOf bs)) <? 1) with false; [reflexivity|].
  symmetry. apply Z.ltb_ge.
  destruct bs as [|c bs]; [cbn in H1; lia|].
  cbn [textOf fold_right]. rewrite length_append.
  pose proof (stringOfByte_length c). lia.
Qed.

(** X9.  The length a label declares is not enforced.  When the first length
    byte is [k], at most 63, and it is followed by at least one and at most
    [k] bytes, none of them zero, and then a zero byte, [readQName] returns
    the text of those bytes as the name: a zero byte met before a label is
    complete ends the name. *)
Theorem readQName_short_label (k : Z) (bs rest : list byte) :
  (1 <= List.length bs)%nat -> Z.of_nat (List.length bs) <= k <= 63 ->
  Forall (fun c => byteZ c <> 0) bs ->
  readQName (toByte k :: bs ++ x00 :: rest) = Return (textOf bs, x00 :: rest).
Proof. apply readQName_early_zero. Qed.

Lemma readQName_short_label_witness :
  readQName [x07; x65; x78; x00; x6d] = Return ("ex"%string, [x00; x6d]).
Proof.
  apply (readQName_short_label 7 [x65; x78] [x6d]).
  - cbn. lia.
  - cbn. lia.
  - repeat constructor; vm_compute; discriminate.
Defined.

(** X10.  The buffers [readQName] rejects at once.  On the empty buffer it
    panics with the runtime's bounds error.  On a buffer of one byte, and on
    a buffer whose second byte is zero, it panics with
    [ErrorInvalidQNameLength] whatever the first byte is: a name without any
    character is never returned. *)
Theorem readQName_rejects :
  readQName [] = Panic BoundsError /\
  (forall c, readQName [c] = Panic (ErrorValue ErrorInvalidQNameLength)) /\
  (forall c rest,
      readQName (c :: x00 :: rest) = Panic (ErrorValue ErrorInvalidQNameLength)).
Proof.
  split; [reflexivity|]. split.
  - intros c. unfold readQName.
    cbn [index nth_error bind sliceFrom List.length Nat.leb skipn].
    destruct (63 <? uint8 (byteZ c)); reflexivity.
  - intros c rest. unfold readQName.
    cbn [index nth_error bind sliceFrom List.length Nat.leb skipn].
    destruct (63 <? uint8 (byteZ c)); [reflexivity|].
    replace (len (x00 :: rest) <? 1) with false
      by (symmetry; apply Z.ltb_ge; unfold len; cbn [List.length]; lia).
    rewrite readLabels_zero. reflexivity.
Qed.

(** X11.  A zero first length byte does not end the name.  Put in front of
    what [writeQName] wrote for a valid name, it makes [readQName] return
    the name with a dot in front of it: the byte after the zero is taken as
    the length of a label. *)
Theorem readQName_leading_zero (n : string) (rest : list byte) :
  validName n = true ->
  readQName (x00 :: writeQName n ++ rest) =
  Return (String "." n, x00 :: rest).
Proof.
  intros H. rewrite writeQName_valid by assumption.
  unfold validName in H.
  pose proof (SplitDot_nonempty n) as Hne.
  pose proof (concat_SplitDot n) as Hc.
  destruct (SplitDot n) as [|l ls]; [congruence|].
  rewrite concat_dotted in Hc.
  rewrite <- app_assoc. cbn [app].
  unfold readQName.
  cbn [index nth_error bind sliceFrom List.length Nat.leb skipn].
  change (uint8 (byteZ x00)) with 0. change (63 <? 0) with false. cbv iota.
  replace (len (labelsWire (l :: ls) ++ x00 :: rest) <? 1) with false.
  2:{ symmetry. apply Z.ltb_ge. unfold len. rewrite length_app. cbn [List.length]. lia. }
  rewrite readLabels_labels by assumption. cbn [bind append].
  cbn [dotted fold_right]. fold (dotted ls). rewrite Hc.
  cbn [append String.length].
  replace (Z.of_nat (S (String.length n)) <? 1) with false
    by (symmetry; apply Z.ltb_ge; lia).
  reflexivity.
Qed.

Lemma readQName_leading_zero_witness :
  readQName (x00 :: writeQName "example.com" ++ e2eFields) =
  Return (".example.com"%string, x00 :: e2eFields).
Proof.
  apply (readQName_leading_zero "example.com" e2eFields). vm_compute. reflexivity.
Defined.

(** X12.  Label bytes from 0x80 on.  [readQName] turns such a byte into two
    characters of the name, and [writeQName] of that name writes the length
    byte 2 followed by the one byte: the length [writeQName] writes counts
    the characters of the label, the bytes it emits after it are one for
    each code point. *)
Theorem high_byte_label (c : byte) (rest : list byte) :
  0x80 <= byteZ c ->
  readQName (x01 :: c :: x00 :: rest) = Return (stringOfByte c, x00 :: rest) /\
  String.length (stringOfByte c) = 2%nat /\
  writeQName (stringOfByte c) = [x02; c; x00].
Proof.
  intros H. split.
  - pose proof (readQName_early_zero 1 [c] rest) as R.
    cbn [app textOf fold_right List.length] in R. rewrite append_nil_r in R.
    apply R; [lia | cbn; lia | repeat constructor; lia].
  - destruct c;
      first [ exfalso; vm_compute in H; apply H; reflexivity
            | split; vm_compute; reflexivity ].
Qed.

Lemma high_byte_label_witness :
  readQName [x01; xe9; x00] = Return (stringOfByte xe9, [x00]) /\
  String.length (stringOfByte xe9) = 2%nat /\
  writeQName (stringOfByte xe9) = [x02; xe9; x00].
Proof.
  apply (high_byte_label xe9 []). vm_compute. discriminate.
Defined.

(** ** Question *)

Lemma newQuestion_short (b : list byte) (n : string) (r : list byte) :
  readQName b = Return (n, r) -> (List.length r < 16)%nat ->
  newQuestion b = Panic BoundsError.
Proof.
  intros Hn Hlen. unfold newQuestion. rewrite Hn. cbn [bind].
  destruct (readQName_rest b n r Hn) as [r' ->].
  cbn [index nth_error bind]. unfold sliceFrom.
  destruct (12 <=? List.length (x00 :: r'))%nat eqn:E; cbn [bind]; [|reflexivity].
  apply Nat.leb_le in E.
  destruct (read16_cases (skipn 12 (x00 :: r'))) as [[E1 _]|[v [E1 L1]]];
    rewrite E1; cbn [bind]; [reflexivity|].
  rewrite read16_short; [reflexivity|].
  rewrite !length_skipn in *. lia.
Qed.

Lemma newQuestion_inv (b : list byte) (q : question.t) (b2 : list byte) :
  newQuestion b = Return (q, b2) ->
  exists r, readQName b = Return (question.qname q, r) /\
            (16 <= List.length r)%nat /\ b2 = skipn 16 r.
Proof.
  unfold newQuestion.
  destruct (readQName b) as [[n r]|w] eqn:Hn; cbn [bind]; [|congruence].
  destruct (readQName_rest b n r Hn) as [r' ->].
  cbn [index nth_error bind]. unfold sliceFrom.
  destruct (12 <=? List.length (x00 :: r'))%nat eqn:E; cbn [bind]; [|congruence].
  destruct (read16_cases (skipn 12 (x00 :: r'))) as [[E1 _]|[v [E1 L1]]];
    rewrite E1; cbn [bind]; [congruence|].
  destruct (read16_cases (skipn 2 (skipn 12 (x00 :: r')))) as [[E2 _]|[v' [E2 L2]]];
    rewrite E2; cbn [bind]; [congruence|].
  intros H. injection H as <- <-. exists (x00 :: r').
  cbn [question.qname]. split; [reflexivity|]. split.
  - rewrite !length_skipn in L2. lia.
  - change (skipn 2 (skipn 2 (skipn 12 (x00 :: r'))) = skipn 16 (x00 :: r')).
    rewrite !skipn_skipn. reflexivity.
Qed.

(** X13.  [newQuestion] after the name.  A panic of [readQName] is the
    panic of [newQuestion].  When [readQName] returns, [newQuestion] needs
    sixteen unread bytes, counted from the zero byte that ends the name: with
    fewer it panics with the runtime's bounds error; otherwise it skips
    twelve of them, reads qtype and qclass as the big-endian values of the
    next two pairs of bytes, and returns what follows. *)
Theorem newQuestion_after_name (b : list byte) :
  (forall v, readQName b = Panic v -> newQuestion b = Panic v) /\
  (forall n r,
      readQName b = Return (n, r) -> (List.length r < 16)%nat ->
      newQuestion b = Panic BoundsError) /\
  (forall n r skipped q0 q1 c0 c1 rest,
      readQName b = Return (n, r) ->
      r = skipped ++ q0 :: q1 :: c0 :: c1 :: rest ->
      List.length skipped = 12%nat ->
      newQuestion b =
      Return (question.mk n (256 * byteZ q0 + byteZ q1) (256 * byteZ c0 + byteZ c1),
              rest)).
Proof.
  split; [|split].
  - intros v H. unfold newQuestion. rewrite H. reflexivity.
  - apply newQuestion_short.
  - intros. eapply newQuestion_offset; eassumption.
Qed.

Lemma newQuestion_after_name_witness :
  newQuestion firstLengthName = Panic (ErrorValue ErrorInvalidQNameLength) /\
  newQuestion (e2eName ++ e2eFields) = Panic BoundsError /\
  newQuestion (e2eName ++ e2eFields ++ e2eTail) =
    Return (question.mk "example.com" (256 * byteZ x3c + byteZ x00)
              (256 * byteZ x04 + byteZ x5d), [xb8; xd8; x22]).
Proof.
  split; [|split].
  - apply (proj1 (newQuestion_after_name firstLengthName)). vm_compute. reflexivity.
  - apply (proj1 (proj2 (newQuestion_after_name (e2eName ++ e2eFields)))
             "example.com"%string (x00 :: e2eFields)).
    + vm_compute. reflexivity.
    + cbn. lia.
  - apply (proj2 (proj2 (newQuestion_after_name (e2eName ++ e2eFields ++ e2eTail)))
             "example.com"%string (x00 :: e2eFields ++ e2eTail)
             (x00 :: e2eFields ++ firstn 7 e2eTail)).
    + vm_compute. reflexivity.
    + reflexivity.
    + reflexivity.
Defined.

(** ** Resource record *)

Ltac step_reads := repeat first [step_read16 | step_read32].

Lemma newResourceRecord_bytes
      (t0 t1 t2 t3 t4 t5 t6 t7 t8 t9 t10 t11 t12 t13 : byte) (rest : list byte) :
  newResourceRecord
    (t0 :: t1 :: t2 :: t3 :: t4 :: t5 :: t6 :: t7 :: t8 :: t9 :: t10 :: t11
        :: t12 :: t13 :: rest) =
  Return (resourceRecord.mk EmptyString
            (256 * byteZ t0 + byteZ t1)
            (256 * byteZ t2 + byteZ t3)
            (2 ^ 24 * byteZ t4 + 2 ^ 16 * byteZ t5 + 2 ^ 8 * byteZ t6 + byteZ t7)
            (256 * byteZ t8 + byteZ t9)
            (2 ^ 24 * byteZ t10 + 2 ^ 16 * byteZ t11 + 2 ^ 8 * byteZ t12 + byteZ t13),
          rest).
Proof. unfold newResourceRecord. step_reads. reflexivity. Qed.

Lemma newResourceRecord_short (b : list byte) :
  (List.length b < 14)%nat -> newResourceRecord b = Panic BoundsError.
Proof.
  intros H. unfold newResourceRecord.
  do 14 (destruct b as [|? b];
         [step_reads; reflexivity | cbn [List.length] in H]).
  lia.
Qed.

Lemma u32_bytes (a b c d : Z) :
  0 <= a < 256 -> 0 <= b < 256 -> 0 <= c < 256 -> 0 <= d < 256 ->
  let v := 2 ^ 24 * a + 2 ^ 16 * b + 2 ^ 8 * c + d in
  Z.land (Z.shiftr v 24) 0xff = a /\ Z.land (Z.shiftr v 16) 0xff = b /\
  Z.land (Z.shiftr v 8) 0xff = c /\ Z.land (Z.shiftr v 0) 0xff = d.
Proof.
  intros Ha Hb Hc Hd v. subst v.
  change 0xff with (Z.ones 8). rewrite !Z.land_ones, !Z.shiftr_div_pow2 by lia.
  change (2 ^ 24) with 16777216. change (2 ^ 16) with 65536.
  change (2 ^ 8) with 256. change (2 ^ 0) with 1.
  repeat split; Z.div_mod_to_equations; lia.
Qed.

Lemma u32_readback (x : Z) :
  0 <= x < 2 ^ 32 ->
  2 ^ 24 * uint8 (uint8 (Z.land (Z.shiftr x 24) 0xff)) +
  2 ^ 16 * uint8 (uint8 (Z.land (Z.shiftr x 16) 0xff)) +
  2 ^ 8 * uint8 (uint8 (Z.land (Z.shiftr x 8) 0xff)) +
  uint8 (uint8 (Z.land (Z.shiftr x 0) 0xff)) = x.
Proof.
  intros Hx. unfold uint8.
  change 0xff with (Z.ones 8). rewrite !Z.land_ones, !Z.shiftr_div_pow2 by lia.
  rewrite !Z.mod_mod by lia.
  change (2 ^ 32) with 4294967296 in Hx.
  change (2 ^ 24) with 16777216. change (2 ^ 16) with 65536.
  change (2 ^ 8) with 256. change (2 ^ 0) with 1.
  Z.div_mod_to_equations. lia.
Qed.

Lemma recordBytes_written
      (t0 t1 t2 t3 t4 t5 t6 t7 t8 t9 t10 t11 t12 t13 : byte) (n : string) :
  resourceRecord.Write
    (resourceRecord.mk n
       (256 * byteZ t0 + byteZ t1)
       (256 * byteZ t2 + byteZ t3)
       (2 ^ 24 * byteZ t4 + 2 ^ 16 * byteZ t5 + 2 ^ 8 * byteZ t6 + byteZ t7)
       (256 * byteZ t8 + byteZ t9)
       (2 ^ 24 * byteZ t10 + 2 ^ 16 * byteZ t11 + 2 ^ 8 * byteZ t12 + byteZ t13)) =
  [t0; t1; t2; t3; t4; t5; t6; t7; t8; t9; t10; t11; t12; t13] ++ writeQName n.
Proof.
  cbv [resourceRecord.Write resourceRecord.name resourceRecord.rtype
       resourceRecord.class resourceRecord.ttl resourceRecord.length
       resourceRecord.rdata].
  rewrite !hi_byte, !lo_byte.
  destruct (u32_bytes (byteZ t4) (byteZ t5) (byteZ t6) (byteZ t7)
              (byteZ_range t4) (byteZ_range t5) (byteZ_range t6) (byteZ_range t7))
    as (A1 & A2 & A3 & A4).
  destruct (u32_bytes (byteZ t10) (byteZ t11) (byteZ t12) (byteZ t13)
              (byteZ_range t10) (byteZ_range t11) (byteZ_range t12) (byteZ_range t13))
    as (B1 & B2 & B3 & B4).
  cbv zeta in A1, A2, A3, A4, B1, B2, B3, B4.
  rewrite A1, A2, A3, A4, B1, B2, B3, B4.
  rewrite !toByte_uint8, !toByte_byteZ. reflexivity.
Qed.

Lemma newResourceRecord_inv (b : list byte) (rr : resourceRecord.t) (b3 : list byte) :
  newResourceRecord b = Return (rr, b3) ->
  exists t, List.length t = 14%nat /\ b = t ++ b3 /\
            forall n, resourceRecord.Write (resourceRecord.setName rr n) =
                      t ++ writeQName n.
Proof.
  intros H.
  destruct (Nat.lt_ge_cases (List.length b) 14) as [Hs|Hl].
  - rewrite (newResourceRecord_short b Hs) in H. discriminate.
  - do 14 (destruct b as [|? b]; [cbn [List.length] in Hl; lia|]).
    rewrite newResourceRecord_bytes in H.
    match type of H with Return (?x, _) = _ => remember x as x0 eqn:E0 end.
    injection H as Hh Hr. subst rr b3 x0.
    eexists [_; _; _; _; _; _; _; _; _; _; _; _; _; _].
    split; [reflexivity|]. split; [reflexivity|].
    intros n. unfold resourceRecord.setName.
    cbv [resourceRecord.name resourceRecord.rtype resourceRecord.class
         resourceRecord.ttl resourceRecord.length resourceRecord.rdata].
    apply recordBytes_written.
Qed.

(** X14.  [newResourceRecord] panics with the runtime's bounds error exactly
    when the buffer has fewer than fourteen bytes, and it panics in no other
    way. *)
Theorem newResourceRecord_panics_iff_short (b : list byte) :
  (forall v, newResourceRecord b = Panic v -> v = BoundsError) /\
  (newResourceRecord b = Panic BoundsError <-> (List.length b < 14)%nat).
Proof.
  split; [intros v; apply newResourceRecord_panic|].
  split.
  - intros H. destruct (Nat.lt_ge_cases (List.length b) 14) as [Hs|Hl]; [assumption|].
    do 14 (destruct b as [|? b]; [cbn [List.length] in Hl; lia|]).
    rewrite newResourceRecord_bytes in H. discriminate.
  - apply newResourceRecord_short.
Qed.

Lemma newResourceRecord_panics_iff_short_witness :
  newResourceRecord (firstn 13 e2eTail) = Panic BoundsError.
Proof.
  apply (proj2 (proj2 (newResourceRecord_panics_iff_short (firstn 13 e2eTail)))).
  cbn. lia.
Defined.

(** X15.  Decoding a record and writing it again.  For every fourteen bytes,
    [resourceRecord.Write] of the record [newResourceRecord] decoded from
    them, under whatever name, is those fourteen bytes followed by the
    encoding of the name. *)
Theorem newResourceRecord_then_Write
        (t0 t1 t2 t3 t4 t5 t6 t7 t8 t9 t10 t11 t12 t13 : byte)
        (rest : list byte) (n : string) :
  exists rr,
    newResourceRecord
      (t0 :: t1 :: t2 :: t3 :: t4 :: t5 :: t6 :: t7 :: t8 :: t9 :: t10 :: t11
          :: t12 :: t13 :: rest) = Return (rr, rest) /\
    resourceRecord.Write (resourceRecord.setName rr n) =
    [t0; t1; t2; t3; t4; t5; t6; t7; t8; t9; t10; t11; t12; t13] ++ writeQName n.
Proof.
  eexists. split; [apply newResourceRecord_bytes|].
  unfold resourceRecord.setName.
  cbv [resourceRecord.name resourceRecord.rtype resourceRecord.class
       resourceRecord.ttl resourceRecord.length resourceRecord.rdata].
  apply recordBytes_written.
Qed.

(** X16.  Writing a record and decoding it again.  For a record whose fields
    are within their types, [newResourceRecord] of what
    [resourceRecord.Write] wrote, with any bytes after it, returns the same
    rtype, class, ttl, length and rdata with an empty name, and leaves the
    encoded name unread. *)
Theorem resourceRecord_Write_then_new (rr : resourceRecord.t) (rest : list byte) :
  recordInRange rr ->
  newResourceRecord (resourceRecord.Write rr ++ rest) =
  Return (resourceRecord.setName rr EmptyString,
          writeQName (resourceRecord.name rr) ++ rest).
Proof.
  destruct rr as [n rtype class ttl length rdata].
  unfold recordInRange, resourceRecord.setName.
  cbv [resourceRecord.Write resourceRecord.name resourceRecord.rtype
       resourceRecord.class resourceRecord.ttl resourceRecord.length
       resourceRecord.rdata].
  intros (H1 & H2 & H3 & H4 & H5).
  cbn [app]. rewrite newResourceRecord_bytes. rewrite !byteZ_toByte.
  rewrite !uint16_bytes_readback by assumption.
  rewrite !u32_readback by assumption. reflexivity.
Qed.

Lemma resourceRecord_Write_then_new_witness :
  newResourceRecord (resourceRecord.Write sampleRecord ++ [x2a]) =
  Return (resourceRecord.setName sampleRecord EmptyString,
          writeQName (resourceRecord.name sampleRecord) ++ [x2a]).
Proof.
  apply (resourceRecord_Write_then_new sampleRecord [x2a]).
  unfold recordInRange. cbn. lia.
Defined.

(** ** Message *)

Lemma NewHeader_inv (b : list byte) (hdr : header.t) (b1 : list byte) :
  NewHeader b = Return (hdr, b1) -> (12 <= List.length b)%nat /\ b1 = skipn 12 b.
Proof.
  intros H. destruct (Nat.lt_ge_cases (List.length b) 12) as [Hs|Hl].
  - rewrite (NewHeader_short b Hs) in H. discriminate.
  - split; [assumption|]. destruct (NewHeader_long b Hl) as [hdr' E].
    rewrite E in H. injection H as _ <-. reflexivity.
Qed.

(** The parts of a datagram that [NewMessage] decodes: twelve bytes of
    header, the bytes of the name up to its zero byte, sixteen bytes from
    that zero byte on, fourteen bytes of record, and the rest. *)
Lemma NewMessage_shape (b : list byte) (m : Message.t) :
  NewMessage b = Return m ->
  exists h12 pre q16 t rest,
    b = h12 ++ pre ++ q16 ++ t ++ rest /\
    List.length h12 = 12%nat /\ (2 <= List.length pre)%nat /\
    List.length q16 = 16%nat /\ List.length t = 14%nat /\
    Message.Write m =
      header.Write (Message.hdr m) ++ t ++ writeQName (question.qname (Message.q m)).
Proof.
  unfold NewMessage.
  destruct (NewHeader b) as [[hdr b1]|w] eqn:Eh; cbn [bind]; [|congruence].
  destruct (newQuestion b1) as [[q b2]|w] eqn:Eq; cbn [bind]; [|congruence].
  destruct (newResourceRecord b2) as [[rr b3]|w] eqn:Er; cbn [bind]; [|congruence].
  intros H. injection H as <-.
  destruct (NewHeader_inv _ _ _ Eh) as [Hl12 ->].
  destruct (newQuestion_inv _ _ _ Eq) as (r & Hn & Hl16 & ->).
  destruct (readQName_inv _ _ _ Hn) as (_ & pre & r' & Hpre & _ & Hl2).
  destruct (newResourceRecord_inv _ _ _ Er) as (t & Hl14 & Ht & Hw).
  exists (firstn 12 b), pre, (firstn 16 r), t, b3.
  repeat split.
  - rewrite <- Ht, (firstn_skipn 16 r), <- Hpre. symmetry. apply firstn_skipn.
  - apply firstn_length_le. assumption.
  - assumption.
  - apply firstn_length_le. assumption.
  - assumption.
  - unfold Message.Write. cbn [Message.hdr Message.q Message.rr app].
    rewrite Hw. reflexivity.
Qed.

(** X17.  [NewMessage] never returns a message for a datagram of fewer than
    44 bytes: twelve of header, at least two of name before its zero byte,
    sixteen from that zero byte on and fourteen of record. *)
Theorem NewMessage_needs_44_bytes (b : list byte) (m : Message.t) :
  NewMessage b = Return m -> (44 <= List.length b)%nat.
Proof.
  intros H. destruct (NewMessage_shape b m H)
    as (h12 & pre & q16 & t & rest & -> & L1 & L2 & L3 & L4 & _).
  rewrite !length_app. lia.
Qed.

Lemma NewMessage_needs_44_bytes_witness : (44 <= List.length e2eDatagram)%nat.
Proof.
  apply (NewMessage_needs_44_bytes e2eDatagram
           (Message.mk queryHeader (question.mk "example.com" 15360 1117)
              (resourceRecord.mk "example.com" 47320 8704 0 0 0))).
  vm_compute. reflexivity.
Defined.

(** X18.  What [Message.Write] makes of a decoded message.  When
    [NewMessage] returns [m] for a datagram, [Message.Write m] is the header
    as [header.Write] writes it, then the fourteen bytes the record was read
    from, found at least thirty bytes into the datagram, then the encoding
    of the question's name; the question's type and class are not written,
    so the result is 26 bytes longer than the encoded name. *)
Theorem Message_Write_of_decoded (b : list byte) (m : Message.t) :
  NewMessage b = Return m ->
  exists front t rest,
    b = front ++ t ++ rest /\ (30 <= List.length front)%nat /\
    List.length t = 14%nat /\
    Message.Write m =
      header.Write (Message.hdr m) ++ t ++ writeQName (question.qname (Message.q m)) /\
    List.length (Message.Write m) =
      (26 + List.length (writeQName (question.qname (Message.q m))))%nat.
Proof.
  intros H. destruct (NewMessage_shape b m H)
    as (h12 & pre & q16 & t & rest & -> & L1 & L2 & L3 & L4 & Hw).
  exists (h12 ++ pre ++ q16), t, rest. repeat split.
  - rewrite <- !app_assoc. reflexivity.
  - rewrite !length_app. lia.
  - assumption.
  - assumption.
  - rewrite Hw, !length_app, L4. cbn [header.Write List.length]. lia.
Qed.

Lemma Message_Write_of_decoded_witness :
  exists front t rest,
    e2eDatagram = front ++ t ++ rest /\ (30 <= List.length front)%nat /\
    List.length t = 14%nat /\
    Message.Write (Message.mk queryHeader (question.mk "example.com" 15360 1117)
                     (resourceRecord.mk "example.com" 47320 8704 0 0 0)) =
      header.Write queryHeader ++ t ++ writeQName "example.com" /\
    List.length
      (Message.Write (Message.mk queryHeader (question.mk "example.com" 15360 1117)
                        (resourceRecord.mk "example.com" 47320 8704 0 0 0))) =
      (26 + List.length (writeQName "example.com"))%nat.
Proof.
  apply (Message_Write_of_decoded e2eDatagram
           (Message.mk queryHeader (question.mk "example.com" 15360 1117)
              (resourceRecord.mk "example.com" 47320 8704 0 0 0))).
  vm_compute. reflexivity.
Defined.

(** ** The earlier copies *)

Lemma accessor_all :
  forallb (fun x2 => forallb (fun x3 => accessorCheck x2 x3) (below 256)) (below 256)
  = true.
Proof. vm_compute. reflexivity. Qed.

Lemma accessor_bytes (x2 x3 : Z) :
  0 <= x2 < 256 -> 0 <= x3 < 256 ->
  let qinfo := 256 * x2 + x3 in
  Z.shiftr (Z.land qinfo QrMask) 15 = x2 / 128 /\
  Z.shiftr (Z.land qinfo OPCodeMask) 11 = (x2 / 8) mod 16 /\
  Z.shiftr (Z.land qinfo AAMask) 10 = (x2 / 4) mod 2 /\
  Z.shiftr (Z.land qinfo TCMask) 9 = (x2 / 2) mod 2 /\
  Z.shiftr (Z.land qinfo RDMask) 8 = x2 mod 2 /\
  Z.shiftr (Z.land qinfo RAMask) 7 = x3 / 128 /\
  Z.shiftr (Z.land qinfo ZMask) 6 = (x3 / 64) mod 2 /\
  Z.land qinfo RCodeMask = x3 mod 64.
Proof.
  intros H2 H3.
  pose proof (proj1 (forallb_forall _ _) accessor_all x2 (In_below 256 x2 H2)) as H.
  pose proof (proj1 (forallb_forall _ _) H x3 (In_below 256 x3 H3)) as H'.
  clear H. unfold accessorCheck in H'.
  cbv [Snapshot2.header.qr Snapshot2.header.opcode Snapshot2.header.aa
       Snapshot2.header.tc Snapshot2.header.rd Snapshot2.header.ra
       Snapshot2.header.z Snapshot2.header.rcode Snapshot2.header.qinfo] in H'.
  rewrite !andb_true_iff, !Z.eqb_eq in H'. cbv zeta. tauto.
Qed.

(** X19.  The methods of the header of the second copy take the flags word
    apart without loss.  For every 16-bit flags word, qr, aa, tc, rd, ra and
    z are 0 or 1, opcode is below 16, rcode is below 64, and the word is
    qr*2^15 + opcode*2^11 + aa*2^10 + tc*2^9 + rd*2^8 + ra*2^7 + z*2^6 +
    rcode. *)
Theorem flags_word_partition (hdr : Snapshot2.header.t) :
  0 <= Snapshot2.header.qinfo hdr < 2 ^ 16 ->
  Snapshot2.header.qinfo hdr =
    Snapshot2.header.qr hdr * 2 ^ 15 + Snapshot2.header.opcode hdr * 2 ^ 11 +
    Snapshot2.header.aa hdr * 2 ^ 10 + Snapshot2.header.tc hdr * 2 ^ 9 +
    Snapshot2.header.rd hdr * 2 ^ 8 + Snapshot2.header.ra hdr * 2 ^ 7 +
    Snapshot2.header.z hdr * 2 ^ 6 + Snapshot2.header.rcode hdr /\
  0 <= Snapshot2.header.qr hdr <= 1 /\ 0 <= Snapshot2.header.opcode hdr < 16 /\
  0 <= Snapshot2.header.aa hdr <= 1 /\ 0 <= Snapshot2.header.tc hdr <= 1 /\
  0 <= Snapshot2.header.rd hdr <= 1 /\ 0 <= Snapshot2.header.ra hdr <= 1 /\
  0 <= Snapshot2.header.z hdr <= 1 /\ 0 <= Snapshot2.header.rcode hdr < 64.
Proof.
  destruct hdr as [id qinfo qd an ns ar].
  cbv [Snapshot2.header.qr Snapshot2.header.opcode Snapshot2.header.aa
       Snapshot2.header.tc Snapshot2.header.rd Snapshot2.header.ra
       Snapshot2.header.z Snapshot2.header.rcode Snapshot2.header.qinfo].
  intros Hq. change (2 ^ 16) with 65536 in Hq.
  assert (E : qinfo = 256 * (qinfo / 256) + qinfo mod 256)
    by (Z.div_mod_to_equations; lia).
  assert (H2 : 0 <= qinfo / 256 < 256) by (Z.div_mod_to_equations; lia).
  assert (H3 : 0 <= qinfo mod 256 < 256) by (Z.div_mod_to_equations; lia).
  destruct (accessor_bytes _ _ H2 H3) as (E1 & E2 & E3 & E4 & E5 & E6 & E7 & E8).
  cbv zeta in E1, E2, E3, E4, E5, E6, E7, E8.
  rewrite <- E in E1, E2, E3, E4, E5, E6, E7, E8.
  rewrite E1, E2, E3, E4, E5, E6, E7, E8.
  revert H2 H3 E. generalize (qinfo / 256) (qinfo mod 256). intros x2 x3 H2 H3 E.
  change (2 ^ 15) with 32768. change (2 ^ 11) with 2048. change (2 ^ 10) with 1024.
  change (2 ^ 9) with 512. change (2 ^ 8) with 256. change (2 ^ 7) with 128.
  change (2 ^ 6) with 64.
  repeat split; Z.div_mod_to_equations; lia.
Qed.

Lemma flags_word_partition_witness :
  0x8583 =
    Snapshot2.header.qr (Snapshot2.header.mk 1 0x8583 1 0 0 0) * 2 ^ 15 +
    Snapshot2.header.opcode (Snapshot2.header.mk 1 0x8583 1 0 0 0) * 2 ^ 11 +
    Snapshot2.header.aa (Snapshot2.header.mk 1 0x8583 1 0 0 0) * 2 ^ 10 +
    Snapshot2.header.tc (Snapshot2.header.mk 1 0x8583 1 0 0 0) * 2 ^ 9 +
    Snapshot2.header.rd (Snapshot2.header.mk 1 0x8583 1 0 0 0) * 2 ^ 8 +
    Snapshot2.header.ra (Snapshot2.header.mk 1 0x8583 1 0 0 0) * 2 ^ 7 +
    Snapshot2.header.z (Snapshot2.header.mk 1 0x8583 1 0 0 0) * 2 ^ 6 +
    Snapshot2.header.rcode (Snapshot2.header.mk 1 0x8583 1 0 0 0).
Proof.
  apply (proj1 (flags_word_partition (Snapshot2.header.mk 1 0x8583 1 0 0 0)
                  ltac:(cbn; lia))).
Defined.

Lemma Snapshot2_NewHeader_short (b : list byte) :
  (List.length b < 12)%nat -> Snapshot2.NewHeader b = Panic BoundsError.
Proof.
  intros H. unfold Snapshot2.NewHeader.
  do 12 (destruct b as [|? b];
         [repeat step_read16; reflexivity | cbn [List.length] in H]).
  lia.
Qed.

Lemma Snapshot2_NewHeader_bytes
      (b0 b1 b2 b3 b4 b5 b6 b7 b8 b9 b10 b11 : byte) (rest : list byte) :
  Snapshot2.NewHeader (b0 :: b1 :: b2 :: b3 :: b4 :: b5 :: b6 :: b7 :: b8 :: b9
                          :: b10 :: b11 :: rest) =
  Return (Snapshot2.header.mk (256 * byteZ b0 + byteZ b1) (256 * byteZ b2 + byteZ b3)
            (256 * byteZ b4 + byteZ b5) (256 * byteZ b6 + byteZ b7)
            (256 * byteZ b8 + byteZ b9) (256 * byteZ b10 + byteZ b11), rest).
Proof. unfold Snapshot2.NewHeader. repeat step_read16. reflexivity. Qed.

(** X20.  The header decoders of the second and third copies agree.  On
    every buffer, where [NewHeader] of the second copy panics so does
    [NewHeader] of the third, with the same value; where it returns a header
    and the unread bytes, [NewHeader] of the third copy returns the same
    unread bytes and the header whose fields are what the methods qr,
    opcode, aa, tc, rd, ra, z and rcode of the second copy's header
    return. *)
Theorem NewHeader_agrees_with_second_copy (b : list byte) :
  match Snapshot2.NewHeader b with
  | Return (hdr, rest) => NewHeader b = Return (fieldsOf hdr, rest)
  | Panic v => NewHeader b = Panic v
  end.
Proof.
  destruct (Nat.lt_ge_cases (List.length b) 12) as [Hs|Hl].
  - rewrite (Snapshot2_NewHeader_short b Hs). apply NewHeader_short. assumption.
  - do 12 (destruct b as [|? b]; [cbn [List.length] in Hl; lia|]).
    rewrite Snapshot2_NewHeader_bytes, NewHeader_bytes.
    destruct (accessor_bytes _ _ (byteZ_range b2) (byteZ_range b3))
      as (E1 & E2 & E3 & E4 & E5 & E6 & E7 & E8).
    cbv zeta in E1, E2, E3, E4, E5, E6, E7, E8.
    cbv [fieldsOf Snapshot2.header.qr Snapshot2.header.opcode Snapshot2.header.aa
         Snapshot2.header.tc Snapshot2.header.rd Snapshot2.header.ra
         Snapshot2.header.z Snapshot2.header.rcode Snapshot2.header.qinfo
         Snapshot2.header.id Snapshot2.header.qdcount Snapshot2.header.ancount
         Snapshot2.header.nscount Snapshot2.header.arcount].
    rewrite E1, E2, E3, E4, E5, E6, E7, E8. reflexivity.
Qed.

Lemma Snapshot1_NewHeader_short (b : list byte) :
  (List.length b < 12)%nat -> Snapshot1.NewHeader b = Panic BoundsError.
Proof.
  intros H. unfold Snapshot1.NewHeader.
  do 12 (destruct b as [|? b];
         [repeat step_read16; reflexivity | cbn [List.length] in H]).
  lia.
Qed.

Lemma Snapshot1_NewHeader_bytes
      (b0 b1 b2 b3 b4 b5 b6 b7 b8 b9 b10 b11 : byte) (rest : list byte) :
  Snapshot1.NewHeader (b0 :: b1 :: b2 :: b3 :: b4 :: b5 :: b6 :: b7 :: b8 :: b9
                          :: b10 :: b11 :: rest) =
  Return (Snapshot1.header.mk (256 * byteZ b0 + byteZ b1)
            (0 <? byteZ b2 / 128) ((byteZ b2 / 8) mod 16) (0 <? (byteZ b2 / 4) mod 2)
            (0 <? (byteZ b2 / 2) mod 2) (0 <? byteZ b2 mod 2)
            (0 <? byteZ b3 / 128) (0 <? (byteZ b3 / 64) mod 2) (byteZ b3 mod 64)
            (256 * byteZ b4 + byteZ b5) (256 * byteZ b6 + byteZ b7)
            (256 * byteZ b8 + byteZ b9) (256 * byteZ b10 + byteZ b11), rest).
Proof.
  unfold Snapshot1.NewHeader. repeat step_read16.
  destruct (accessor_bytes _ _ (byteZ_range b2) (byteZ_range b3))
    as (E1 & E2 & E3 & E4 & E5 & E6 & E7 & E8).
  cbv zeta in E1, E2, E3, E4, E5, E6, E7, E8.
  rewrite E1, E2, E3, E4, E5, E6, E7, E8.
  replace (uint8 (byteZ b3 mod 64)) with (byteZ b3 mod 64).
  2:{ unfold uint8. pose proof (byteZ_range b3).
      symmetry. apply Z.mod_small. Z.div_mod_to_equations. lia. }
  replace (uint8 ((byteZ b2 / 8) mod 16)) with ((byteZ b2 / 8) mod 16).
  2:{ unfold uint8. pose proof (byteZ_range b2).
      symmetry. apply Z.mod_small. Z.div_mod_to_equations. lia. }
  reflexivity.
Qed.

(** X21.  The header decoders of the first and third copies agree.  On every
    buffer, where [NewHeader] of the third copy panics so does [NewHeader]
    of the first, with the same value; where it returns a header and the
    unread bytes, [NewHeader] of the first copy returns the same unread
    bytes and the same id, opcode, rcode and counts, and each of its flags
    qr, aa, tc, rd, ra and z is true exactly when the field of the third
    copy's header is 1. *)
Theorem NewHeader_agrees_with_first_copy (b : list byte) :
  match NewHeader b with
  | Return (hdr, rest) =>
      Snapshot1.NewHeader b = Return (flagsAsBool hdr, rest) /\
      (Snapshot1.header.qr (flagsAsBool hdr) = true <-> header.qr hdr = 1) /\
      (Snapshot1.header.aa (flagsAsBool hdr) = true <-> header.aa hdr = 1) /\
      (Snapshot1.header.tc (flagsAsBool hdr) = true <-> header.tc hdr = 1) /\
      (Snapshot1.header.rd (flagsAsBool hdr) = true <-> header.rd hdr = 1) /\
      (Snapshot1.header.ra (flagsAsBool hdr) = true <-> header.ra hdr = 1) /\
      (Snapshot1.header.z (flagsAsBool hdr) = true <-> header.z hdr = 1)
  | Panic v => Snapshot1.NewHeader b = Panic v
  end.
Proof.
  destruct (Nat.lt_ge_cases (List.length b) 12) as [Hs|Hl].
  - rewrite (NewHeader_short b Hs). apply Snapshot1_NewHeader_short. assumption.
  - do 12 (destruct b as [|? b]; [cbn [List.length] in Hl; lia|]).
    rewrite NewHeader_bytes, Snapshot1_NewHeader_bytes.
    split; [reflexivity|].
    cbv [flagsAsBool Snapshot1.header.qr Snapshot1.header.aa Snapshot1.header.tc
         Snapshot1.header.rd Snapshot1.header.ra Snapshot1.header.z
         header.qr header.aa header.tc header.rd header.ra header.z].
    rewrite !Z.ltb_lt.
    pose proof (byteZ_range b2) as R2. pose proof (byteZ_range b3) as R3.
    revert R2 R3. generalize (byteZ b2) (byteZ b3). intros x2 x3 R2 R3.
    repeat split; intros; Z.div_mod_to_equations; lia.
Qed.

Lemma Snapshot2_NewQuestion_short (b : list byte) :
  (List.length b < 16)%nat -> Snapshot2.NewQuestion b = Panic BoundsError.
Proof.
  intros H. unfold Snapshot2.NewQuestion.
  do 16 (destruct b as [|? b]; [reflexivity | cbn [List.length] in H]).
  lia.
Qed.

Lemma Snapshot2_NewQuestion_bytes
      (n0 n1 n2 n3 n4 n5 n6 n7 n8 n9 n10 x q0 q1 c0 c1 : byte) (rest : list byte) :
  Snapshot2.NewQuestion
    (n0 :: n1 :: n2 :: n3 :: n4 :: n5 :: n6 :: n7 :: n8 :: n9 :: n10 :: x
        :: q0 :: q1 :: c0 :: c1 :: rest) =
  Return (Snapshot2.question.mk [n0; n1; n2; n3; n4; n5; n6; n7; n8; n9; n10]
            (256 * byteZ q0 + byteZ q1) (256 * byteZ c0 + byteZ c1), rest).
Proof.
  unfold Snapshot2.NewQuestion.
  cbn [sliceTo sliceFrom List.length Nat.leb firstn skipn bind].
  repeat step_read16. reflexivity.
Qed.

(** X22.  [NewMessage] of the second copy reads a fixed 28 bytes.  On a
    buffer of fewer than 28 bytes it panics with the runtime's bounds error;
    on any other it returns a message, the same one that the first 28 bytes
    alone give, whose question name is bytes 12 to 22 of the buffer and
    whose question type and class are the big-endian values of bytes 24-25
    and 26-27: byte 23 is skipped. *)
Theorem second_copy_NewMessage_layout (b : list byte) :
  ((List.length b < 28)%nat -> Snapshot2.NewMessage b = Panic BoundsError) /\
  ((28 <= List.length b)%nat ->
   exists m,
     Snapshot2.NewMessage b = Return m /\
     Snapshot2.NewMessage (firstn 28 b) = Return m /\
     Snapshot2.question.qname (Snapshot2.Message.q m) = firstn 11 (skipn 12 b) /\
     read16 (skipn 24 b) =
       Return (Snapshot2.question.qtype (Snapshot2.Message.q m), skipn 26 b) /\
     read16 (skipn 26 b) =
       Return (Snapshot2.question.qclass (Snapshot2.Message.q m), skipn 28 b)).
Proof.
  split.
  - intros H. unfold Snapshot2.NewMessage.
    destruct (Nat.lt_ge_cases (List.length b) 12) as [Hs|Hl].
    + rewrite (Snapshot2_NewHeader_short b Hs). reflexivity.
    + do 12 (destruct b as [|? b]; [cbn [List.length] in Hl; lia|]).
      rewrite Snapshot2_NewHeader_bytes. cbn [bind].
      rewrite Snapshot2_NewQuestion_short; [reflexivity|].
      cbn [List.length] in H. lia.
  - intros H.
    do 28 (destruct b as [|? b]; [cbn [List.length] in H; lia|]).
    eexists. unfold Snapshot2.NewMessage. cbn [firstn skipn].
    rewrite !Snapshot2_NewHeader_bytes. cbn [bind].
    rewrite !Snapshot2_NewQuestion_bytes. cbn [bind].
    rewrite !read16_cons.
    repeat split; reflexivity.
Qed.

Lemma second_copy_NewMessage_layout_witness :
  Snapshot2.NewMessage (firstn 27 e2eInput) = Panic BoundsError /\
  exists m,
    Snapshot2.NewMessage e2eInput = Return m /\
    Snapshot2.NewMessage (firstn 28 e2eInput) = Return m /\
    Snapshot2.question.qname (Snapshot2.Message.q m) = firstn 11 (skipn 12 e2eInput) /\
    read16 (skipn 24 e2eInput) =
      Return (Snapshot2.question.qtype (Snapshot2.Message.q m), skipn 26 e2eInput) /\
    read16 (skipn 26 e2eInput) =
      Return (Snapshot2.question.qclass (Snapshot2.Message.q m), skipn 28 e2eInput).
Proof.
  split.
  - apply (proj1 (second_copy_NewMessage_layout (firstn 27 e2eInput))). cbn. lia.
  - apply (proj2 (second_copy_NewMessage_layout e2eInput)). cbn. lia.
Defined.

Lemma Snapshot1_newQuestion_short (b : list byte) :
  (List.length b < 16)%nat -> Snapshot1.newQuestion b = Panic BoundsError.
Proof.
  intros H. unfold Snapshot1.newQuestion.
  do 16 (destruct b as [|? b]; [reflexivity | cbn [List.length] in H]).
  lia.
Qed.

Lemma Snapshot1_newQuestion_bytes
      (n0 n1 n2 n3 n4 n5 n6 n7 n8 n9 n10 n11 q0 q1 c0 c1 : byte) (rest : list byte) :
  Snapshot1.newQuestion
    (n0 :: n1 :: n2 :: n3 :: n4 :: n5 :: n6 :: n7 :: n8 :: n9 :: n10 :: n11
        :: q0 :: q1 :: c0 :: c1 :: rest) =
  Return (Snapshot1.question.mk [n0; n1; n2; n3; n4; n5; n6; n7; n8; n9; n10; n11]
            (256 * byteZ q0 + byteZ q1) (256 * byteZ c0 + byteZ c1), rest).
Proof.
  unfold Snapshot1.newQuestion.
  cbn [sliceTo sliceFrom List.length Nat.leb firstn skipn bind].
  repeat step_read16. reflexivity.
Qed.

Lemma Snapshot1_newResourceRecord_short (b : list byte) :
  (List.length b < 14)%nat -> Snapshot1.newResourceRecord b = Panic BoundsError.
Proof.
  intros H. unfold Snapshot1.newResourceRecord.
  do 14 (destruct b as [|? b];
         [cbn [sliceTo List.length Nat.leb firstn bind]; step_reads; reflexivity
         | cbn [List.length] in H]).
  lia.
Qed.

Lemma Snapshot1_newResourceRecord_bytes
      (t0 t1 t2 t3 t4 t5 t6 t7 t8 t9 t10 t11 t12 t13 : byte) (rest : list byte) :
  Snapshot1.newResourceRecord
    (t0 :: t1 :: t2 :: t3 :: t4 :: t5 :: t6 :: t7 :: t8 :: t9 :: t10 :: t11
        :: t12 :: t13 :: rest) =
  Return (Snapshot1.resourceRecord.mk
            [t0; t1; t2; t3; t4; t5; t6; t7; t8; t9; t10]
            (256 * byteZ t0 + byteZ t1)
            (256 * byteZ t2 + byteZ t3)
            (2 ^ 24 * byteZ t4 + 2 ^ 16 * byteZ t5 + 2 ^ 8 * byteZ t6 + byteZ t7)
            (256 * byteZ t8 + byteZ t9)
            (2 ^ 24 * byteZ t10 + 2 ^ 16 * byteZ t11 + 2 ^ 8 * byteZ t12 + byteZ t13),
          rest).
Proof.
  unfold Snapshot1.newResourceRecord.
  cbn [sliceTo List.length Nat.leb firstn bind]. step_reads. reflexivity.
Qed.

(** X23.  In the first copy the name of a record is cut from the bytes of
    its own fields.  On every buffer of at least fourteen bytes
    [newResourceRecord] returns the record whose name is bytes 0 to 10 and
    whose rtype, class, ttl, length and rdata are the big-endian values of
    bytes 0-1, 2-3, 4-7, 8-9 and 10-13 of the same buffer, with the bytes
    after the fourteenth; on a shorter buffer it panics with the runtime's
    bounds error. *)
Theorem first_copy_record_name_overlaps :
  (forall (t0 t1 t2 t3 t4 t5 t6 t7 t8 t9 t10 t11 t12 t13 : byte) (rest : list byte),
      Snapshot1.newResourceRecord
        (t0 :: t1 :: t2 :: t3 :: t4 :: t5 :: t6 :: t7 :: t8 :: t9 :: t10 :: t11
            :: t12 :: t13 :: rest) =
      Return (Snapshot1.resourceRecord.mk
                [t0; t1; t2; t3; t4; t5; t6; t7; t8; t9; t10]
                (256 * byteZ t0 + byteZ t1)
                (256 * byteZ t2 + byteZ t3)
                (2 ^ 24 * byteZ t4 + 2 ^ 16 * byteZ t5 + 2 ^ 8 * byteZ t6 + byteZ t7)
                (256 * byteZ t8 + byteZ t9)
                (2 ^ 24 * byteZ t10 + 2 ^ 16 * byteZ t11 + 2 ^ 8 * byteZ t12
                 + byteZ t13),
              rest)) /\
  (forall b, (List.length b < 14)%nat ->
             Snapshot1.newResourceRecord b = Panic BoundsError).
Proof.
  split; [apply Snapshot1_newResourceRecord_bytes
         | apply Snapshot1_newResourceRecord_short].
Qed.

Lemma first_copy_record_name_overlaps_witness :
  Snapshot1.newResourceRecord (firstn 13 e2eTail) = Panic BoundsError.
Proof.
  apply (proj2 first_copy_record_name_overlaps (firstn 13 e2eTail)). cbn. lia.
Defined.

(** X24.  [NewMessage] of the first copy reads a fixed 42 bytes.  On a
    buffer of fewer than 42 bytes it panics with the runtime's bounds error;
    on any other it returns a message, the same one that the first 42 bytes
    alone give, whose question name is bytes 12 to 23 and whose record name
    is bytes 28 to 38 of the buffer. *)
Theorem first_copy_NewMessage_layout (b : list byte) :
  ((List.length b < 42)%nat -> Snapshot1.NewMessage b = Panic BoundsError) /\
  ((42 <= List.length b)%nat ->
   exists m,
     Snapshot1.NewMessage b = Return m /\
     Snapshot1.NewMessage (firstn 42 b) = Return m /\
     Snapshot1.question.qname (Snapshot1.Message.q m) = firstn 12 (skipn 12 b) /\
     Snapshot1.resourceRecord.name (Snapshot1.Message.rr m) =
       firstn 11 (skipn 28 b)).
Proof.
  split.
  - intros H. unfold Snapshot1.NewMessage.
    destruct (Nat.lt_ge_cases (List.length b) 12) as [Hs|Hl].
    + rewrite (Snapshot1_NewHeader_short b Hs). reflexivity.
    + do 12 (destruct b as [|? b]; [cbn [List.length] in Hl; lia|]).
      rewrite Snapshot1_NewHeader_bytes. cbn [bind]. cbn [List.length] in H.
      destruct (Nat.lt_ge_cases (List.length b) 16) as [Hs|Hl'].
      * rewrite (Snapshot1_newQuestion_short b Hs). reflexivity.
      * do 16 (destruct b as [|? b]; [cbn [List.length] in Hl'; lia|]).
        rewrite Snapshot1_newQuestion_bytes. cbn [bind].
        rewrite Snapshot1_newResourceRecord_short; [reflexivity|].
        cbn [List.length] in H. lia.
  - intros H.
    do 42 (destruct b as [|? b]; [cbn [List.length] in H; lia|]).
    eexists. unfold Snapshot1.NewMessage. cbn [firstn skipn].
    rewrite !Snapshot1_NewHeader_bytes. cbn [bind].
    rewrite !Snapshot1_newQuestion_bytes. cbn [bind].
    rewrite !Snapshot1_newResourceRecord_bytes. cbn [bind].
    repeat split; reflexivity.
Qed.

Lemma first_copy_NewMessage_layout_witness :
  Snapshot1.NewMessage (firstn 41 e2eInput) = Panic BoundsError /\
  exists m,
    Snapshot1.NewMessage e2eInput = Return m /\
    Snapshot1.NewMessage (firstn 42 e2eInput) = Return m /\
    Snapshot1.question.qname (Snapshot1.Message.q m) = firstn 12 (skipn 12 e2eInput) /\
    Snapshot1.resourceRecord.name (Snapshot1.Message.rr m) =
      firstn 11 (skipn 28 e2eInput).
Proof.
  split.
  - apply (proj1 (first_copy_NewMessage_layout (firstn 41 e2eInput))). cbn. lia.
  - apply (proj2 (first_copy_NewMessage_layout e2eInput)). cbn. lia.
Defined.
